(** * Scoring core of gap_eul_backend: risk aggregation and power balance

    A shallow embedding of the three scoring modules of the repository,
    [risk_calculator.py], [power_analyzer.py] and [index.py], followed by
    the properties of the specification settled against them.

    Conventions of the embedding.
    - A Python [dict] with optional keys (a finding, a power item) is a
      record of [option] fields; [d.get(k, default)] is [default] applied
      to the field.  Dictionaries used as maps are [gmap string _].
    - Keys, enum-like values and messages are only ever compared for
      equality or returned, so they are Rocq [string]s holding the UTF-8
      bytes of the source literal.  Contract text is indexed by character
      ([len], [split], [count], slicing), so it is a list of code points.
    - A Python [float] is an IEEE 754 binary64 number.  A finite binary64
      value is represented by the rational it denotes and every operation
      is the exact operation followed by rounding to nearest, ties to
      even ([F64.rn]).
    - A raised exception is the [Raise] alternative of [result]. *)

From Stdlib Require Import ZArith QArith Qabs Lqa List String Ascii Lia.
From stdpp Require Import base option list gmap strings pretty.
Import ListNotations.

Local Open Scope string_scope.
Local Open Scope list_scope.
Local Open Scope Z_scope.

(** ** IEEE 754 binary64 arithmetic *)

Module F64.

(** A finite binary64 value, given by its exact value. *)
Definition t := Q.

(** Nearest integer to [n / d] for [0 < d], ties to the even one. *)
Definition round_half_even (n d : Z) : Z :=
  let q := n / d in
  let r := n mod d in
  match 2 * r ?= d with
  | Lt => q
  | Gt => q + 1
  | Eq => if Z.even q then q else q + 1
  end.

(** [floor (log2 (n / d))] for positive [n] and [d]. *)
Definition floor_log2 (n d : Z) : Z :=
  let k := Z.log2 n - Z.log2 d in
  if d * 2 ^ Z.max 0 k <=? n * 2 ^ Z.max 0 (- k) then k else k - 1.

(** Rounding of the positive rational [n / d]: the significand has 53
    bits, the unit in the last place is never below [2 ^ -1074]
    (gradual underflow).  Values of [2 ^ 1024] and above have no finite
    binary64 neighbour; no operation of the scoring code reaches them. *)
Definition rn_pos (n d : Z) : Q :=
  let e := Z.max (floor_log2 n d - 52) (- 1074) in
  let m := round_half_even (n * 2 ^ Z.max 0 (- e)) (d * 2 ^ Z.max 0 e) in
  (m * 2 ^ Z.max 0 e) # Z.to_pos (2 ^ Z.max 0 (- e)).

(** Round to nearest, ties to even. *)
Definition rn (x : Q) : t :=
  match Qnum x with
  | Z0 => 0%Q
  | Zpos n => rn_pos (Zpos n) (Zpos (Qden x))
  | Zneg n => (- rn_pos (Zpos n) (Zpos (Qden x)))%Q
  end.

(** A decimal literal of the source denotes the nearest binary64. *)
Definition lit (x : Q) : t := rn x.

(** [float(z)] *)
Definition of_int (z : Z) : t := rn (inject_Z z).

Definition add (x y : t) : t := rn (x + y)%Q.
Definition mul (x y : t) : t := rn (x * y)%Q.
Definition div (x y : t) : t := rn (x / y)%Q.

(** [a / b] on Python integers: the correctly rounded quotient. *)
Definition truediv (a b : Z) : t := rn (inject_Z a / inject_Z b)%Q.

(** [int(x)]: truncation toward zero. *)
Definition trunc (x : t) : Z := Z.quot (Qnum x) (Zpos (Qden x)).

(** [round(x)]: nearest integer, ties to even. *)
Definition round (x : t) : Z := round_half_even (Qnum x) (Zpos (Qden x)).

(** [round(x, ndigits)] for [0 <= ndigits]: the decimal expansion of the
    exact value is rounded half-even at [ndigits] places and the result
    is read back as a binary64. *)
Definition round_nd (x : t) (ndigits : Z) : t :=
  rn (round_half_even (Qnum x * 10 ^ ndigits) (Zpos (Qden x)) # Z.to_pos (10 ^ ndigits)).

Definition ltb (x y : Q) : bool := negb (Qle_bool y x).
Definition leb (x y : Q) : bool := Qle_bool x y.
Definition eqb (x y : Q) : bool := Qeq_bool x y.

End F64.

(** ** Python numbers, strings and exceptions *)

Module Py.

(** [int] or [float]: Python keeps them apart and compares them by
    value. *)
Inductive num : Type :=
| Int (z : Z)
| Float (x : F64.t).

Definition val (n : num) : Q :=
  match n with
  | Int z => inject_Z z
  | Float x => x
  end.

Definition to_float (n : num) : F64.t :=
  match n with
  | Int z => F64.of_int z
  | Float x => x
  end.

(** [a + b] *)
Definition num_add (a b : num) : num :=
  match a, b with
  | Int x, Int y => Int (x + y)
  | _, _ => Float (F64.add (to_float a) (to_float b))
  end.

(** [a / b] for [b != 0] *)
Definition num_div (a b : num) : num :=
  match a, b with
  | Int x, Int y => Float (F64.truediv x y)
  | _, _ => Float (F64.div (to_float a) (to_float b))
  end.

(** [a > b], [a >= b], [a == b] *)
Definition gt (a b : num) : bool := F64.ltb (val b) (val a).
Definition ge (a b : num) : bool := F64.leb (val b) (val a).
Definition eq (a b : num) : bool := F64.eqb (val a) (val b).

(** [sum(xs)]: left to right from the integer [0]. *)
Definition sum (xs : list num) : num := fold_left num_add xs (Int 0).

(** [round(n, ndigits)]: an [int] is returned unchanged. *)
Definition round_nd (n : num) (ndigits : Z) : num :=
  match n with
  | Int z => Int z
  | Float x => Float (F64.round_nd x ndigits)
  end.

(** [f"{z}"] for an integer. *)
Definition str_of_int (z : Z) : string :=
  match z with
  | Z0 => "0"
  | Zpos p => pretty (Npos p)
  | Zneg p => String.append "-" (pretty (Npos p))
  end.

(** *** Exceptions *)

Inductive exn : Type :=
| KeyError (key : string)
| ValueError (msg : string).

Inductive result (A : Type) : Type :=
| Ok (a : A)
| Raise (e : exn).
Arguments Ok {A} a.
Arguments Raise {A} e.

Definition bind {A B : Type} (r : result A) (k : A -> result B) : result B :=
  match r with
  | Ok a => k a
  | Raise e => Raise e
  end.

(** [d[k]] *)
Definition getitem {V : Type} (d : gmap string V) (k : string) : result V :=
  match d !! k with
  | Some v => Ok v
  | None => Raise (KeyError k)
  end.

(** A [for] loop whose body may raise. *)
Fixpoint for_each {A S : Type} (body : S -> A -> result S) (xs : list A) (s : S)
  : result S :=
  match xs with
  | [] => Ok s
  | x :: xs' => bind (body s x) (for_each body xs')
  end.

(** *** Text: a [str] as the list of its code points *)

Definition text := list N.

Definition byte (a : ascii) : N := N_of_ascii a.

(** The code points of a UTF-8 encoded literal. *)
Fixpoint utf8_decode (s : string) : text :=
  match s with
  | EmptyString => []
  | String a s1 =>
      let b0 := byte a in
      if (b0 <? 128)%N then b0 :: utf8_decode s1
      else if (b0 <? 224)%N then
        match s1 with
        | String b s2 =>
            ((b0 mod 32) * 64 + byte b mod 64)%N :: utf8_decode s2
        | _ => []
        end
      else if (b0 <? 240)%N then
        match s1 with
        | String b (String c s3) =>
            ((b0 mod 16) * 4096 + (byte b mod 64) * 64 + byte c mod 64)%N
              :: utf8_decode s3
        | _ => []
        end
      else
        match s1 with
        | String b (String c (String d s4)) =>
            ((b0 mod 8) * 262144 + (byte b mod 64) * 4096
               + (byte c mod 64) * 64 + byte d mod 64)%N :: utf8_decode s4
        | _ => []
        end
  end.

Abbreviation u := utf8_decode.

(** A one-character literal. *)
Definition char (s : string) : N := hd 0%N (utf8_decode s).

(** [len(s)] *)
Definition len (s : text) : Z := Z.of_nat (length s).

(** [c in s] for a one-character [c] *)
Definition contains (c : N) (s : text) : bool := existsb (N.eqb c) s.

(** [s.startswith(sub)] *)
Fixpoint startswith (sub s : text) : bool :=
  match sub, s with
  | [], _ => true
  | _ :: _, [] => false
  | a :: sub', b :: s' => (a =? b)%N && startswith sub' s'
  end.

(** The scan of [s.count(sub)] for a non-empty [sub]: [skip] characters
    of the last occurrence are still to be passed over. *)
Fixpoint count_scan (sub s : text) (skip : nat) : Z :=
  match s with
  | [] => 0
  | _ :: s' =>
      match skip with
      | S k => count_scan sub s' k
      | O =>
          if startswith sub s
          then 1 + count_scan sub s' (length sub - 1)
          else count_scan sub s' 0
      end
  end.

(** [s.count(sub)]: the number of non-overlapping occurrences, found
    from left to right. *)
Definition count (s sub : text) : Z :=
  match sub with
  | [] => len s + 1
  | _ => count_scan sub s 0
  end.

(** [s.split(c)] for a one-character separator. *)
Fixpoint split (c : N) (s : text) : list text :=
  match s with
  | [] => [[]]
  | a :: s' =>
      if (a =? c)%N then [] :: split c s'
      else
        match split c s' with
        | piece :: pieces => (a :: piece) :: pieces
        | [] => [[a]]
        end
  end.

(** [str.isspace] on one character. *)
Definition isspace (c : N) : bool :=
  ((9 <=? c) && (c <=? 13) || (28 <=? c) && (c <=? 32)
   || (c =? 133) || (c =? 160) || (c =? 5760)
   || (8192 <=? c) && (c <=? 8202)
   || (c =? 8232) || (c =? 8233) || (c =? 8239) || (c =? 8287)
   || (c =? 12288))%N.

Fixpoint lstrip (s : text) : text :=
  match s with
  | [] => []
  | a :: s' => if isspace a then lstrip s' else s
  end.

(** [s.strip()] *)
Definition strip (s : text) : text := rev (lstrip (rev (lstrip s))).

(** [not s] *)
Definition is_empty (s : text) : bool :=
  match s with
  | [] => true
  | _ => false
  end.

(** [s[i:j]] for [0 <= i <= j] *)
Definition slice (s : text) (i j : Z) : text :=
  firstn (Z.to_nat (j - i)) (skipn (Z.to_nat i) s).

(** [range(0, stop, step)] for [0 < step] *)
Definition range_step (stop step : Z) : list Z :=
  map (fun k => Z.of_nat k * step) (seq 0 (Z.to_nat ((stop + step - 1) / step))).

(** [len(xs)] on a list. *)
Definition len_list {A : Type} (xs : list A) : Z := Z.of_nat (length xs).

(** [sum(xs)] on integers. *)
Definition sum_int (xs : list Z) : Z := fold_left Z.add xs 0.

End Py.

Import Py.

(** ** Input records shared by the three modules *)

(** A finding: a [dict] whose keys may be missing. *)
Record Finding : Type := mkFinding {
  category : option string;
  severity : option string;
  matched_text : option string;
  location : option string
}.

(** A power item: [{"text": ..., "severity": ...}]. *)
Record PowerItem : Type := mkPowerItem {
  item_text : option string;
  item_severity : option string
}.

Definition set_severity (f : Finding) (s : option string) : Finding :=
  mkFinding (category f) s (matched_text f) (location f).

Definition set_item_severity (i : PowerItem) (s : option string) : PowerItem :=
  mkPowerItem (item_text i) s.

(** [d.get(k, dflt)] on a constant table. *)
Definition get {V : Type} (d : gmap string V) (k : string) (dflt : V) : V :=
  default dflt (d !! k).

(** ** risk_calculator.py *)

Module RiskCalculator.

Definition RISK_WEIGHTS : gmap string Z :=
  list_to_map
    [ ("unilateral_termination", 30);
      ("excessive_damages", 25);
      ("copyright_transfer", 20);
      ("unclear_scope", 15);
      ("payment_delay", 10) ].

Definition SEVERITY_MULTIPLIER : gmap string F64.t :=
  list_to_map
    [ ("critical", F64.lit (15 # 10));
      ("high", F64.lit (12 # 10));
      ("medium", F64.lit (10 # 10));
      ("low", F64.lit (7 # 10)) ].

Record RiskResult : Type := mkRiskResult {
  total_score : Z;
  grade : string;
  category_scores : gmap string Z;
  findings_with_impact : list (Finding * Z)
}.

Definition _calculate_grade (score : Z) : string :=
  if 80 <=? score then "F (매우 위험)"
  else if 60 <=? score then "D (위험)"
  else if 40 <=? score then "C (주의 필요)"
  else if 20 <=? score then "B (보통)"
  else "A (안전)".

(** [int(base_weight * multiplier)] of one finding. *)
Definition impact_score (finding : Finding) : Z :=
  let category := default "" (category finding) in
  let severity := default "medium" (severity finding) in
  let base_weight := get RISK_WEIGHTS category 10 in
  let multiplier := get SEVERITY_MULTIPLIER severity (F64.lit (10 # 10)) in
  F64.trunc (F64.mul (F64.of_int base_weight) multiplier).

(** The loop state: [total_score], [category_scores],
    [findings_with_impact]. *)
Definition loop_state : Type := Z * gmap string Z * list (Finding * Z).

Definition loop_body (st : loop_state) (finding : Finding) : loop_state :=
  let '(total_score, category_scores, findings_with_impact) := st in
  let category := default "" (category finding) in
  let impact := impact_score finding in
  let category_scores' :=
    match category_scores !! category with
    | Some acc => <[category := acc + impact]> category_scores
    | None => <[category := impact]> category_scores
    end in
  (total_score + impact, category_scores', findings_with_impact ++ [(finding, impact)]).

Definition calculate_risk_score (findings : list Finding) : RiskResult :=
  match findings with
  | [] => mkRiskResult 0 "A (안전)" ∅ []
  | _ =>
      let '(total_score, category_scores, findings_with_impact) :=
        fold_left loop_body findings (0, ∅, []) in
      let total_score := Z.min total_score 100 in
      let grade := _calculate_grade total_score in
      mkRiskResult total_score grade category_scores findings_with_impact
  end.

Definition get_category_name_kr (category : string) : string :=
  let category_names : gmap string string :=
    list_to_map
      [ ("unilateral_termination", "일방적 해지권");
        ("excessive_damages", "과도한 손해배상");
        ("copyright_transfer", "저작권 강탈");
        ("unclear_scope", "모호한 업무 범위");
        ("payment_delay", "대금 지급 지연") ] in
  get category_names category category.

End RiskCalculator.

(** ** power_analyzer.py *)

Module PowerAnalyzer.

Definition EMPLOYER_RIGHTS_KEYWORDS : list text :=
  map u
    [ "해지할 수 있다"; "변경할 수 있다"; "요구할 수 있다";
      "결정한다"; "지시한다"; "승인"; "거부할 수 있다";
      "중단할 수 있다"; "요청할 수 있다" ].

Definition EMPLOYEE_OBLIGATIONS_KEYWORDS : list text :=
  map u
    [ "하여야 한다"; "의무를 진다"; "책임을 진다";
      "배상"; "금지"; "제한"; "승인을 받아야";
      "통보하여야"; "준수하여야" ].

(** [sum(s.count(keyword) for keyword in keywords)] *)
Definition count_keywords (s : text) (keywords : list text) : Z :=
  sum_int (map (count s) keywords).

Record PowerBalance : Type := mkPowerBalance {
  balance_ratio : num;
  power_level : string;
  employer_rights_count : Z;
  employee_obligations_count : Z;
  fairness_score : Z;
  recommendations : list string;
  processing_method : option string
}.

(** What the text-driven entry points return: [{"error": ...}] or the
    analysis. *)
Inductive TextAnalysis : Type :=
| ErrorDict (error : string)
| Balance (r : PowerBalance).

Definition _determine_power_level (ratio : num) : string * Z :=
  if gt ratio (Float (F64.lit (30 # 10))) then ("갑 절대우위 (극도로 불공정)", 10)
  else if gt ratio (Float (F64.lit (20 # 10))) then ("갑 우위 (매우 불공정)", 30)
  else if gt ratio (Float (F64.lit (15 # 10))) then ("갑 우위 (불공정)", 50)
  else if gt ratio (Float (F64.lit (12 # 10))) then ("약간 갑 우위", 70)
  else if ge ratio (Float (F64.lit (8 # 10))) then ("균형적", 90)
  else ("을 우위 (드문 경우)", 95).

Definition _generate_recommendations (ratio : num) (employer_count employee_count : Z)
  : list string :=
  let recommendations :=
    if gt ratio (Float (F64.lit (25 # 10))) then
      [ "[긴급] 이 계약서는 극도로 불공정합니다.";
        "[제안] 상호 해지권 명시를 강력히 요청하세요";
        "[제안] 손해배상 상한선 설정을 협의하세요";
        "[제안] 업무 범위를 구체적으로 명시할 것을 요구하세요" ]
    else if gt ratio (Float (F64.lit (20 # 10))) then
      [ "[주의] 계약서가 상당히 불공정합니다.";
        "[제안] 핵심 조항 재협상을 권장합니다";
        "[제안] 일방적 해지권 조항을 상호 조항으로 변경 요청" ]
    else if gt ratio (Float (F64.lit (15 # 10))) then
      [ "[검토] 일부 조항 검토가 필요합니다.";
        "[제안] 불리한 조항 2-3개를 선택해 협상하세요" ]
    else [ "[안전] 비교적 균형잡힌 계약서입니다." ] in
  let recommendations :=
    if 30 <? employee_count then
      recommendations ++
        [ String.append "[경고] 을의 의무가 "
            (String.append (str_of_int employee_count)
               "개로 과다합니다. 핵심 의무만 남기고 삭제 협의하세요.") ]
    else recommendations in
  if (employer_count <? 5) && (10 <? employee_count) then
    recommendations ++
      [ String.append "[경고] 갑의 의무가 "
          (String.append (str_of_int employer_count)
             "개로 너무 적습니다. 상호 의무 조항 추가를 요청하세요.") ]
  else recommendations.

(** The chunks of [analyze_power_balance_chunked]: the pieces between
    the article markers, or slices of [chunk_size] characters. *)
Definition make_chunks (contract_text : text) (chunk_size : Z) : result (list text) :=
  if contains (char "제") contract_text && contains (char "조") contract_text then
    Ok (split (char "제") contract_text)
  else if chunk_size =? 0 then Raise (ValueError "range() arg 3 must not be zero")
  else if chunk_size <? 0 then Ok []
  else
    Ok (map (fun i => slice contract_text i (i + chunk_size))
          (range_step (len contract_text) chunk_size)).

(** One turn of the loop over the chunks; the state is
    [(total_employer, total_employee)]. *)
Definition chunk_body (totals : Z * Z) (chunk : text) : Z * Z :=
  let '(total_employer, total_employee) := totals in
  if is_empty (strip chunk) then totals
  else
    let employer_count := count_keywords chunk EMPLOYER_RIGHTS_KEYWORDS in
    let employee_count := count_keywords chunk EMPLOYEE_OBLIGATIONS_KEYWORDS in
    (total_employer + employer_count, total_employee + employee_count).

(** The two functions call each other; [fuel] bounds the depth of the
    calls and [None] says it ran out ([analysis_terminates] shows that
    three levels always suffice). *)
Fixpoint analyze_power_balance (fuel : nat) (contract_text : option text)
  : option (result TextAnalysis) :=
  match fuel with
  | O => None
  | S fuel' =>
      match contract_text with
      | None => Some (Ok (ErrorDict "계약서 내용이 없습니다"))
      | Some s =>
          if is_empty s then Some (Ok (ErrorDict "계약서 내용이 없습니다"))
          else if 1000 <? len s then analyze_power_balance_chunked fuel' s 500
          else
            let employer_count := count_keywords s EMPLOYER_RIGHTS_KEYWORDS in
            let employee_count := count_keywords s EMPLOYEE_OBLIGATIONS_KEYWORDS in
            let balance_ratio :=
              if employer_count =? 0 then Int employee_count
              else num_div (Int employee_count) (Int employer_count) in
            let '(power_level, fairness_score) := _determine_power_level balance_ratio in
            let recommendations :=
              _generate_recommendations balance_ratio employer_count employee_count in
            Some (Ok (Balance
              (mkPowerBalance (round_nd balance_ratio 2) power_level
                 employer_count employee_count fairness_score recommendations None)))
      end
  end
with analyze_power_balance_chunked (fuel : nat) (contract_text : text) (chunk_size : Z)
  : option (result TextAnalysis) :=
  match fuel with
  | O => None
  | S fuel' =>
      if len contract_text <=? chunk_size
      then analyze_power_balance fuel' (Some contract_text)
      else
        match make_chunks contract_text chunk_size with
        | Raise e => Some (Raise e)
        | Ok chunks =>
            let '(total_employer, total_employee) :=
              fold_left chunk_body chunks (0, 0) in
            let balance_ratio :=
              if total_employer =? 0 then Int total_employee
              else num_div (Int total_employee) (Int total_employer) in
            let '(power_level, fairness_score) := _determine_power_level balance_ratio in
            let recommendations :=
              _generate_recommendations balance_ratio total_employer total_employee in
            Some (Ok (Balance
              (mkPowerBalance (round_nd balance_ratio 2) power_level
                 total_employer total_employee fairness_score recommendations
                 (Some "chunked"))))
        end
  end.

Definition calculate_power_balance_from_counts (employer_count employee_count : Z)
  : PowerBalance :=
  let balance_ratio :=
    if employer_count =? 0 then Int employee_count
    else num_div (Int employee_count) (Int employer_count) in
  let '(power_level, fairness_score) := _determine_power_level balance_ratio in
  let recommendations :=
    _generate_recommendations balance_ratio employer_count employee_count in
  mkPowerBalance (round_nd balance_ratio 2) power_level employer_count employee_count
    fairness_score recommendations None.

Record WeightedBalance : Type := mkWeightedBalance {
  w_balance_ratio : num;
  w_power_level : string;
  w_employer_rights_count : Z;
  w_employee_obligations_count : Z;
  employer_weighted_score : num;
  employee_weighted_score : num;
  w_fairness_score : Z;
  w_recommendations : list string;
  severity_breakdown : gmap string Z * gmap string Z
}.

Definition severity_weights : gmap string F64.t :=
  list_to_map
    [ ("critical", F64.lit (30 # 10));
      ("high", F64.lit (20 # 10));
      ("medium", F64.lit (10 # 10));
      ("low", F64.lit (5 # 10)) ].

(** [sum(severity_weights.get(item.get("severity", "medium"), 1.0) for item in items)].
    The weights are multiples of 0.5, so the partial sums are exact for
    any list that fits in memory and the order of summation is immaterial
    there. *)
Definition weighted_sum (items : list PowerItem) : num :=
  sum (map (fun item =>
              Float (get severity_weights (default "medium" (item_severity item))
                       (F64.lit (10 # 10))))
           items).

Definition breakdown_body (counts : gmap string Z) (item : PowerItem) : gmap string Z :=
  let severity := default "medium" (item_severity item) in
  <[severity := get counts severity 0 + 1]> counts.

(** The pair is [(breakdown["employer"], breakdown["employee"])]. *)
Definition _analyze_severity_breakdown (employer_items employee_items : list PowerItem)
  : gmap string Z * gmap string Z :=
  let zero : gmap string Z :=
    list_to_map [("critical", 0); ("high", 0); ("medium", 0); ("low", 0)] in
  (fold_left breakdown_body employer_items zero,
   fold_left breakdown_body employee_items zero).

Definition calculate_power_balance_weighted (employer_items employee_items : list PowerItem)
  : WeightedBalance :=
  let employer_weighted := weighted_sum employer_items in
  let employee_weighted := weighted_sum employee_items in
  let employer_count := len_list employer_items in
  let employee_count := len_list employee_items in
  let balance_ratio :=
    if eq employer_weighted (Int 0) then employee_weighted
    else num_div employee_weighted employer_weighted in
  let '(power_level, fairness_score) := _determine_power_level balance_ratio in
  let recommendations :=
    _generate_recommendations balance_ratio employer_count employee_count in
  let severity_breakdown := _analyze_severity_breakdown employer_items employee_items in
  mkWeightedBalance (round_nd balance_ratio 2) power_level employer_count employee_count
    (round_nd employer_weighted 1) (round_nd employee_weighted 1)
    fairness_score recommendations severity_breakdown.

End PowerAnalyzer.

(** ** index.py *)

Module Index.

Record RiskAnalysis : Type := mkRiskAnalysis {
  total_score : Z;
  risk_level : string;
  risk_color : string;
  findings_count : Z;
  severity_counts : gmap string Z;
  category_counts : gmap string Z;
  category_names : gmap string string;
  recommendations : list (option string)
}.

Definition severity_weights : gmap string Z :=
  list_to_map [("critical", 10); ("high", 7); ("medium", 4); ("low", 2)].

Definition category_names_table : gmap string string :=
  list_to_map
    [ ("unilateral_termination", "일방적 계약 해지");
      ("excessive_damages", "과도한 손해배상");
      ("copyright_transfer", "저작권 전면 이전");
      ("unclear_scope", "불명확한 업무 범위");
      ("payment_delay", "대금 지급 지연") ].

Definition zero_counts : gmap string Z :=
  list_to_map [("critical", 0); ("high", 0); ("medium", 0); ("low", 0)].

(** [counts[severity] += 1]: reads the entry first, which raises
    [KeyError] when there is none. *)
Definition increment (counts : gmap string Z) (severity : string)
  : result (gmap string Z) :=
  bind (getitem counts severity) (fun n => Ok (<[severity := n + 1]> counts)).

(** The loop state: [total_score], [category_counts], [severity_counts]. *)
Definition risk_state : Type := Z * gmap string Z * gmap string Z.

Definition risk_body (st : risk_state) (finding : Finding) : result risk_state :=
  let '(total_score, category_counts, severity_counts) := st in
  let severity := default "low" (severity finding) in
  let category := default "" (category finding) in
  let total_score := total_score + get severity_weights severity 0 in
  let category_counts := <[category := get category_counts category 0 + 1]> category_counts in
  bind (increment severity_counts severity) (fun severity_counts =>
  Ok (total_score, category_counts, severity_counts)).

Definition analyze_contract_risk (findings : list Finding) : result RiskAnalysis :=
  bind (for_each risk_body findings (0, ∅, zero_counts)) (fun st =>
  let '(total_score, category_counts, severity_counts) := st in
  let '(risk_level, risk_color) :=
    if 30 <=? total_score then ("매우 위험", "red")
    else if 20 <=? total_score then ("위험", "orange")
    else if 10 <=? total_score then ("주의", "yellow")
    else ("양호", "green") in
  bind (getitem severity_counts "critical") (fun critical_count =>
  Ok (mkRiskAnalysis total_score risk_level risk_color (len_list findings)
        severity_counts category_counts category_names_table
        [ if 20 <=? total_score then Some "전문가와 계약서 검토를 권장합니다."
          else Some "계약 체결 전 신중한 검토가 필요합니다.";
          if 0 <? critical_count then Some "불리한 조항에 대해 수정을 요청하세요." else None;
          if 30 <=? total_score then Some "계약서 작성 시 법률 자문을 받는 것을 고려하세요."
          else None ]))).

Record TextBalance : Type := mkTextBalance {
  balance_score : Z;
  balance_level : string;
  balance_color : string;
  employer_rights_count : Z;
  employee_obligations_count : Z;
  analysis : string
}.

Definition employer_keywords : list text :=
  map u
    [ "갑은"; "갑이"; "발주자는"; "발주자가"; "회사는"; "회사가";
      "임의로"; "일방적으로"; "언제든지"; "즉시"; "통보 없이";
      "해지할 수 있다"; "중단할 수 있다"; "변경할 수 있다";
      "지시"; "명령"; "요구"; "승인"; "결정" ].

Definition employee_keywords : list text :=
  map u
    [ "을은"; "을이"; "수급자는"; "수급자가"; "프리랜서는"; "프리랜서가";
      "반드시"; "의무"; "책임"; "준수"; "이행"; "제출";
      "배상"; "손해"; "위약금"; "벌금";
      "금지"; "제한"; "불가"; "할 수 없다" ].

Definition analyze_power_balance (contract_text : text) : TextBalance :=
  let employer_count := sum_int (map (count contract_text) employer_keywords) in
  let employee_count := sum_int (map (count contract_text) employee_keywords) in
  let total := employer_count + employee_count in
  let balance_score :=
    if total =? 0 then 50
    else F64.round (F64.mul (F64.truediv employee_count total) (F64.of_int 100)) in
  let '(balance_level, balance_color) :=
    if 70 <=? balance_score then ("을에게 매우 불리", "red")
    else if 60 <=? balance_score then ("을에게 불리", "orange")
    else if 40 <=? balance_score then ("균형적", "green")
    else if 30 <=? balance_score then ("갑에게 불리", "orange")
    else ("갑에게 매우 불리", "red") in
  mkTextBalance balance_score balance_level balance_color employer_count employee_count
    (String.append "계약서에서 갑의 권리 표현이 "
       (String.append (str_of_int employer_count)
          (String.append "회, 을의 의무 표현이 "
             (String.append (str_of_int employee_count) "회 발견되었습니다.")))).

Record FastBalance : Type := mkFastBalance {
  f_balance_score : Z;
  f_balance_level : string;
  f_balance_color : string;
  f_employer_rights_count : Z;
  f_employee_obligations_count : Z;
  employer_indicators_head : list string;
  employee_indicators_head : list string;
  f_analysis : string
}.

Definition analyze_power_balance_fast (employee_indicators employer_indicators : list string)
  : FastBalance :=
  let employer_count := len_list employer_indicators in
  let employee_count := len_list employee_indicators in
  let total := employer_count + employee_count in
  let balance_score :=
    if total =? 0 then 50
    else F64.round (F64.mul (F64.truediv employee_count total) (F64.of_int 100)) in
  let '(balance_level, balance_color) :=
    if 70 <=? balance_score then ("을에게 매우 불리", "red")
    else if 60 <=? balance_score then ("을에게 불리", "orange")
    else if 40 <=? balance_score then ("균형적", "green")
    else if 30 <=? balance_score then ("갑에게 불리", "orange")
    else ("갑에게 매우 불리", "red") in
  mkFastBalance balance_score balance_level balance_color employer_count employee_count
    (firstn 10 employer_indicators) (firstn 10 employee_indicators)
    (String.append "갑의 권리 표현 "
       (String.append (str_of_int employer_count)
          (String.append "개, 을의 의무 표현 "
             (String.append (str_of_int employee_count) "개가 발견되었습니다.")))).

Record PowerScore : Type := mkPowerScore {
  s_balance_score : Z;
  s_balance_level : string;
  s_balance_color : string;
  s_employer_rights_count : Z;
  s_employee_obligations_count : Z
}.

Definition calculate_power_score (employee_obligations_count employer_rights_count : Z)
  : PowerScore :=
  let total := employee_obligations_count + employer_rights_count in
  let balance_score :=
    if total =? 0 then 50
    else F64.round (F64.mul (F64.truediv employee_obligations_count total) (F64.of_int 100)) in
  let '(balance_level, balance_color) :=
    if 70 <=? balance_score then ("을에게 매우 불리", "red")
    else if 60 <=? balance_score then ("을에게 불리", "orange")
    else if 40 <=? balance_score then ("균형적", "green")
    else if 30 <=? balance_score then ("갑에게 불리", "orange")
    else ("갑에게 매우 불리", "red") in
  mkPowerScore balance_score balance_level balance_color
    employer_rights_count employee_obligations_count.

Record WeightedScore : Type := mkWeightedScore {
  w_balance_score : Z;
  w_balance_level : string;
  w_balance_color : string;
  employer_weighted_score : Z;
  employee_weighted_score : Z;
  w_employer_rights_count : Z;
  w_employee_obligations_count : Z;
  employer_severity_breakdown : gmap string Z;
  employee_severity_breakdown : gmap string Z;
  recommendation : string;
  employer_items_sample : list PowerItem;
  employee_items_sample : list PowerItem
}.

(** The [severity_weights] table of [analyze_power_balance_weighted]. *)
Definition power_severity_weights : gmap string Z :=
  list_to_map [("critical", 4); ("high", 3); ("medium", 2); ("low", 1)].

(** [sum(severity_weights.get(item.get("severity", "medium"), 2) for item in items)] *)
Definition weighted_score (items : list PowerItem) : Z :=
  sum_int (map (fun item => get power_severity_weights (default "medium" (item_severity item)) 2) items).

Definition count_body (counts : gmap string Z) (item : PowerItem)
  : result (gmap string Z) :=
  increment counts (default "medium" (item_severity item)).

Definition analyze_power_balance_weighted (employee_items employer_items : list PowerItem)
  : result WeightedScore :=
  let employer_score := weighted_score employer_items in
  let employee_score := weighted_score employee_items in
  let total_score := employer_score + employee_score in
  let balance_score :=
    if total_score =? 0 then 50
    else F64.round (F64.mul (F64.truediv employee_score total_score) (F64.of_int 100)) in
  let '(balance_level, balance_color, recommendation) :=
    if 70 <=? balance_score then
      ("을에게 매우 불리", "red",
       "계약서에 을에게 과도하게 불리한 조항이 많습니다. 전문가와 상담 후 재협상을 강력히 권장합니다.")
    else if 60 <=? balance_score then
      ("을에게 불리", "orange",
       "을에게 불리한 조항들이 있습니다. 주요 조항에 대한 수정을 요청하세요.")
    else if 40 <=? balance_score then
      ("균형적", "green",
       "비교적 균형잡힌 계약서입니다. 세부 조항을 꼼꼼히 확인하세요.")
    else if 30 <=? balance_score then
      ("갑에게 불리", "orange", "갑에게 불리한 조항들이 있습니다.")
    else ("갑에게 매우 불리", "red", "갑에게 과도하게 불리한 계약서입니다.") in
  bind (for_each count_body employee_items zero_counts) (fun employee_severity =>
  bind (for_each count_body employer_items zero_counts) (fun employer_severity =>
  Ok (mkWeightedScore balance_score balance_level balance_color
        employer_score employee_score
        (len_list employer_items) (len_list employee_items)
        employer_severity employee_severity recommendation
        (firstn 5 employer_items) (firstn 5 employee_items)))).

End Index.

(** ** Vocabulary of the specification *)

(** The order [low < medium < high < critical] on the known severities. *)
Definition severity_rank (s : string) : option Z :=
  if String.eqb s "low" then Some 0
  else if String.eqb s "medium" then Some 1
  else if String.eqb s "high" then Some 2
  else if String.eqb s "critical" then Some 3
  else None.

(** The position of a grade on the scale from "A" (0) to "F" (4). *)
Definition grade_rank (g : string) : Z :=
  if String.eqb g "A (안전)" then 0
  else if String.eqb g "B (보통)" then 1
  else if String.eqb g "C (주의 필요)" then 2
  else if String.eqb g "D (위험)" then 3
  else 4.

(** Sum of the impacts of a list of findings. *)
Definition total_impact (findings : list Finding) : Z :=
  foldr (fun f acc => RiskCalculator.impact_score f + acc) 0 findings.

(** A neutral text analysis: a balance record with zero keyword counts. *)
Definition neutral_analysis (r : option (result PowerAnalyzer.TextAnalysis)) : Prop :=
  exists b, r = Some (Ok (PowerAnalyzer.Balance b))
            /\ PowerAnalyzer.employer_rights_count b = 0
            /\ PowerAnalyzer.employee_obligations_count b = 0.

(** The impacts recorded in [findings_with_impact], in order. *)
Definition impacts (r : RiskCalculator.RiskResult) : list Z :=
  map snd (RiskCalculator.findings_with_impact r).

(** A weighted analysis without the two samples that echo the input. *)
Definition erase_samples (r : result Index.WeightedScore) : result Index.WeightedScore :=
  bind r (fun w =>
    Ok (Index.mkWeightedScore
          (Index.w_balance_score w) (Index.w_balance_level w) (Index.w_balance_color w)
          (Index.employer_weighted_score w) (Index.employee_weighted_score w)
          (Index.w_employer_rights_count w) (Index.w_employee_obligations_count w)
          (Index.employer_severity_breakdown w) (Index.employee_severity_breakdown w)
          (Index.recommendation w) [] [])).

(** The weight [analyze_contract_risk] adds for one finding. *)
Definition index_weight (f : Finding) : Z :=
  get Index.severity_weights (default "low" (severity f)) 0.

(** A severity that is missing or one of the four known levels. *)
Definition known_severity (f : Finding) : Prop :=
  match severity f with
  | None => True
  | Some s => severity_rank s <> None
  end.

(** The four known levels are keys of the counter dictionary. *)
Definition has_levels (counts : gmap string Z) : Prop :=
  forall s, severity_rank s <> None -> is_Some (counts !! s).

(** The occurrences of a keyword counted piece by piece. *)
Definition pieces_total (kw : text) (pieces : list text) : Z :=
  sum_int (map (fun piece => count piece kw) pieces).

(** A keyword that starts with a visible character. *)
Definition visible_head (kw : text) : bool :=
  match kw with
  | [] => false
  | k :: _ => negb (isspace k)
  end.

(** [2 ^ e <= n / d], on integers, for positive [n] and [d]. *)
Definition ge_pow2 (n d e : Z) : Prop :=
  d * 2 ^ Z.max 0 e <= n * 2 ^ Z.max 0 (- e).

(** A contract of 1015 characters: one article heading with the phrase
    "제한", then filler. *)
Definition article_with_limit : text :=
  u "제1조 비밀유지 범위의 제한" ++ repeat 46%N 1000.

(** ** Properties *)

(** *** Binary64 arithmetic on samples *)

(** The literals of the source as the fractions Python reports for them
    ([float.as_integer_ratio]). *)
Lemma binary64_literals :
  (F64.lit (15 # 10) == 3 # 2)%Q
  /\ (F64.lit (12 # 10) == 5404319552844595 # 4503599627370496)%Q
  /\ (F64.lit (7 # 10) == 3152519739159347 # 4503599627370496)%Q
  /\ (F64.lit (8 # 10) == 3602879701896397 # 4503599627370496)%Q
  /\ (F64.lit (5 # 10) == 1 # 2)%Q.
Proof.
  repeat split; vm_compute; reflexivity.
Qed.

(** Inexact quotients and products, ties, conversion of integers beyond
    53 bits, gradual underflow, and the three roundings to integers and
    decimals, on values that CPython prints. *)
Lemma binary64_samples :
  (F64.truediv 1 3 == 6004799503160661 # 18014398509481984)%Q
  /\ (F64.mul (F64.of_int 10) (F64.lit (7 # 10)) == 7)%Q
  /\ (F64.mul (F64.truediv 23 40) (F64.of_int 100)
       == 8092405580431359 # 140737488355328)%Q
  /\ (F64.mul (F64.truediv 109 200) (F64.of_int 100)
       == 7670193115365377 # 140737488355328)%Q
  /\ (F64.of_int (2 ^ 53 + 1) == inject_Z (2 ^ 53))%Q
  /\ (F64.of_int (2 ^ 53 + 3) == inject_Z (2 ^ 53 + 4))%Q
  /\ (F64.truediv 1 (2 ^ 1075) == 0)%Q
  /\ (F64.truediv 3 (2 ^ 1075) == 1 # Z.to_pos (2 ^ 1073))%Q
  /\ (F64.round_nd (F64.truediv 2 3) 2 == 6034823500676465 # 9007199254740992)%Q
  /\ (F64.round_nd (F64.lit (2675 # 1000)) 2 == 1503076375634903 # 562949953421312)%Q
  /\ F64.round (1 # 2) = 0 /\ F64.round (3 # 2) = 2 /\ F64.round (5 # 2) = 2
  /\ F64.round (- 5 # 2) = - 2 /\ F64.trunc (- 27 # 10) = - 2.
Proof.
  repeat split; vm_compute; reflexivity.
Qed.

(** Integers below [2 ^ 53] convert exactly. *)
Lemma of_int_exact (z : Z) : 0 <= z < 2 ^ 53 -> (F64.of_int z == inject_Z z)%Q.
Proof.
  intros Hz. unfold F64.of_int, F64.rn, inject_Z. cbn [Qnum Qden].
  destruct z as [| n | n]; [reflexivity | | lia].
  unfold F64.rn_pos, F64.floor_log2.
  change (Z.log2 1) with 0. rewrite Z.sub_0_r.
  assert (Hlog : 0 <= Z.log2 (Z.pos n) < 53).
  { split; [apply Z.log2_nonneg | apply Z.log2_lt_pow2; lia]. }
  pose proof (Z.log2_spec (Z.pos n) ltac:(lia)) as [Hlow _].
  set (k := Z.log2 (Z.pos n)) in *.
  replace (Z.max 0 k) with k by lia.
  replace (Z.max 0 (- k)) with 0 by lia.
  change (2 ^ 0) with 1. rewrite Z.mul_1_l, Z.mul_1_r.
  rewrite (proj2 (Z.leb_le _ _) Hlow).
  set (e := Z.max (k - 52) (- 1074)).
  assert (He : e = k - 52) by lia.
  replace (Z.max 0 e) with 0 by lia.
  replace (Z.max 0 (- e)) with (52 - k) by lia.
  change (2 ^ 0) with 1. rewrite !Z.mul_1_r.
  assert (Hp : 0 < 2 ^ (52 - k)) by (apply Z.pow_pos_nonneg; lia).
  unfold F64.round_half_even.
  rewrite Z.div_1_r, Z.mod_1_r. change (2 * 0 ?= 1) with Lt. cbv iota.
  unfold Qeq. cbn [Qnum Qden]. rewrite Z2Pos.id by exact Hp. lia.
Qed.

(** *** Lookups in the constant tables *)

Ltac table_cases E :=
  apply elem_of_list_to_map_2 in E;
  repeat (rewrite elem_of_cons in E; destruct E as [E | E];
          [injection E as -> -> |]);
  try (rewrite elem_of_nil in E; contradiction).

Lemma risk_weight_cases (c : string) :
  let w := get RiskCalculator.RISK_WEIGHTS c 10 in
  w = 30 \/ w = 25 \/ w = 20 \/ w = 15 \/ w = 10.
Proof.
  cbv zeta. unfold get.
  destruct (RiskCalculator.RISK_WEIGHTS !! c) as [w |] eqn:E; unfold default, from_option, id.
  - unfold RiskCalculator.RISK_WEIGHTS in E. table_cases E; tauto.
  - tauto.
Qed.

Lemma severity_multiplier_cases (s : string) :
  let m := get RiskCalculator.SEVERITY_MULTIPLIER s (F64.lit (10 # 10)) in
  m = F64.lit (15 # 10) \/ m = F64.lit (12 # 10) \/ m = F64.lit (10 # 10)
  \/ m = F64.lit (7 # 10).
Proof.
  cbv zeta. unfold get.
  destruct (RiskCalculator.SEVERITY_MULTIPLIER !! s) as [m |] eqn:E; unfold default, from_option, id.
  - unfold RiskCalculator.SEVERITY_MULTIPLIER in E. table_cases E; tauto.
  - tauto.
Qed.

Lemma impact_score_bounds (f : Finding) :
  7 <= RiskCalculator.impact_score f <= 45.
Proof.
  unfold RiskCalculator.impact_score.
  destruct (risk_weight_cases (default "" (category f))) as [-> | [-> | [-> | [-> | ->]]]];
  destruct (severity_multiplier_cases (default "medium" (severity f)))
    as [-> | [-> | [-> | ->]]];
  match goal with
  | |- _ <= ?v <= _ => let x := eval vm_compute in v in change v with x
  end; lia.
Qed.

(** *** The risk aggregator as a sum of impacts *)

Lemma total_impact_app (xs ys : list Finding) :
  total_impact (xs ++ ys) = total_impact xs + total_impact ys.
Proof.
  induction xs as [| x xs IH]; cbn [total_impact foldr app] in *.
  - reflexivity.
  - fold (total_impact (xs ++ ys)). fold (total_impact xs).
    unfold total_impact in IH |- *. rewrite IH. lia.
Qed.

Lemma total_impact_lower (findings : list Finding) :
  7 * len_list findings <= total_impact findings.
Proof.
  unfold len_list.
  induction findings as [| f fs IH]; cbn [total_impact foldr length].
  - reflexivity.
  - fold (total_impact fs). pose proof (impact_score_bounds f). lia.
Qed.

Lemma loop_total (findings : list Finding) (st : RiskCalculator.loop_state) :
  (fold_left RiskCalculator.loop_body findings st).1.1 = st.1.1 + total_impact findings.
Proof.
  revert st.
  induction findings as [| f fs IH]; intros [[t cs] fwi]; cbn [fold_left total_impact foldr].
  - cbn. lia.
  - fold (total_impact fs). rewrite IH. cbn. lia.
Qed.

Lemma total_score_min (findings : list Finding) :
  RiskCalculator.total_score (RiskCalculator.calculate_risk_score findings)
  = Z.min (total_impact findings) 100.
Proof.
  destruct findings as [| f fs]; [reflexivity |].
  unfold RiskCalculator.calculate_risk_score.
  pose proof (loop_total (f :: fs) (0, ∅, [])) as H.
  destruct (fold_left RiskCalculator.loop_body (f :: fs) (0, ∅, [])) as [[t cs] fwi].
  cbn in H |- *. rewrite H. reflexivity.
Qed.

Lemma grade_of_total (findings : list Finding) :
  RiskCalculator.grade (RiskCalculator.calculate_risk_score findings)
  = RiskCalculator._calculate_grade
      (RiskCalculator.total_score (RiskCalculator.calculate_risk_score findings)).
Proof.
  destruct findings as [| f fs]; [reflexivity |].
  unfold RiskCalculator.calculate_risk_score.
  destruct (fold_left RiskCalculator.loop_body (f :: fs) (0, ∅, [])) as [[t cs] fwi].
  reflexivity.
Qed.

(** *** Worked example of the risk aggregator *)

(** C1, as stated, fails: the aggregator does not grade the single
    finding unilateral_termination / critical "D". *)
Lemma risk_single_critical_not_grade_D :
  let finding := mkFinding (Some "unilateral_termination") (Some "critical") None None in
  let r := RiskCalculator.calculate_risk_score [finding] in
  RiskCalculator.grade r <> "D (위험)"
  /\ String.prefix "D" (RiskCalculator.grade r) = false.
Proof.
  cbv zeta. split; vm_compute; [discriminate | reflexivity].
Qed.

(** C1, amended: for the single finding unilateral_termination / critical
    the aggregator computes the impact int(30 * 1.5) = 45 and the total
    score 45, and assigns the grade "C" (45 is at least 40 and below 60). *)
Theorem risk_single_critical_termination :
  let finding := mkFinding (Some "unilateral_termination") (Some "critical") None None in
  let r := RiskCalculator.calculate_risk_score [finding] in
  F64.mul (F64.of_int 30) (F64.lit (15 # 10)) == 45
  /\ RiskCalculator.findings_with_impact r = [(finding, 45)]
  /\ RiskCalculator.total_score r = 45
  /\ RiskCalculator.grade r = "C (주의 필요)".
Proof.
  cbv zeta. repeat split; vm_compute; reflexivity.
Qed.

(** *** Bounds of the total score *)

(** C5: the total score of the risk aggregator lies between 0 and 100,
    and it is 0 exactly when the list of findings is empty. *)
Theorem total_score_bounds (findings : list Finding) :
  let total := RiskCalculator.total_score (RiskCalculator.calculate_risk_score findings) in
  0 <= total <= 100 /\ (total = 0 <-> findings = []).
Proof.
  cbv zeta. rewrite total_score_min.
  pose proof (total_impact_lower findings) as Hlow.
  unfold len_list in Hlow.
  destruct findings as [| f fs].
  - split; [cbn; lia |]. split; reflexivity.
  - cbn [length] in Hlow. split; [lia |].
    split; [lia | discriminate].
Qed.

(** *** Raising a severity *)

Lemma severity_rank_cases (s : string) (r : Z) :
  severity_rank s = Some r ->
  (s = "low" /\ r = 0) \/ (s = "medium" /\ r = 1)
  \/ (s = "high" /\ r = 2) \/ (s = "critical" /\ r = 3).
Proof.
  unfold severity_rank.
  destruct (String.eqb_spec s "low") as [-> |]; [intros [= <-]; tauto |].
  destruct (String.eqb_spec s "medium") as [-> |]; [intros [= <-]; tauto |].
  destruct (String.eqb_spec s "high") as [-> |]; [intros [= <-]; tauto |].
  destruct (String.eqb_spec s "critical") as [-> |]; [intros [= <-]; tauto |].
  discriminate.
Qed.

Lemma impact_score_severity_mono (f : Finding) (s1 s2 : string) (r1 r2 : Z) :
  severity_rank s1 = Some r1 -> severity_rank s2 = Some r2 -> r1 < r2 ->
  RiskCalculator.impact_score (set_severity f (Some s1))
  <= RiskCalculator.impact_score (set_severity f (Some s2)).
Proof.
  intros H1 H2 Hlt.
  apply severity_rank_cases in H1, H2.
  unfold RiskCalculator.impact_score, set_severity. cbn [category severity default from_option id].
  destruct (risk_weight_cases (default "" (category f))) as [-> | [-> | [-> | [-> | ->]]]];
  destruct H1 as [[-> ->] | [[-> ->] | [[-> ->] | [-> ->]]]];
  destruct H2 as [[-> ->] | [[-> ->] | [[-> ->] | [-> ->]]]];
  try lia; vm_compute; discriminate.
Qed.

Lemma grade_rank_mono (a b : Z) :
  a <= b ->
  grade_rank (RiskCalculator._calculate_grade a)
  <= grade_rank (RiskCalculator._calculate_grade b).
Proof.
  intros Hab. unfold RiskCalculator._calculate_grade.
  repeat match goal with
         | |- context [?x <=? ?y] => destruct (Z.leb_spec x y)
         end; try lia; vm_compute; discriminate.
Qed.

(** C8: replacing the severity of one finding of a list by a strictly
    higher one (low < medium < high < critical) never decreases the total
    score, and the grade stays or moves toward "F"; the grade is a monotone
    function of the total score. *)
Theorem severity_raise_monotone
    (pre post : list Finding) (f : Finding) (s1 s2 : string) (r1 r2 : Z)
    (H1 : severity_rank s1 = Some r1) (H2 : severity_rank s2 = Some r2)
    (Hlt : r1 < r2) :
  let before :=
    RiskCalculator.calculate_risk_score (pre ++ set_severity f (Some s1) :: post) in
  let after :=
    RiskCalculator.calculate_risk_score (pre ++ set_severity f (Some s2) :: post) in
  RiskCalculator.total_score before <= RiskCalculator.total_score after
  /\ grade_rank (RiskCalculator.grade before) <= grade_rank (RiskCalculator.grade after)
  /\ RiskCalculator.grade before
     = RiskCalculator._calculate_grade (RiskCalculator.total_score before)
  /\ RiskCalculator.grade after
     = RiskCalculator._calculate_grade (RiskCalculator.total_score after)
  /\ (forall a b : Z, a <= b ->
        grade_rank (RiskCalculator._calculate_grade a)
        <= grade_rank (RiskCalculator._calculate_grade b)).
Proof.
  cbv zeta.
  assert (Htotal :
    RiskCalculator.total_score
      (RiskCalculator.calculate_risk_score (pre ++ set_severity f (Some s1) :: post))
    <= RiskCalculator.total_score
         (RiskCalculator.calculate_risk_score (pre ++ set_severity f (Some s2) :: post))).
  { rewrite !total_score_min, !total_impact_app.
    pose proof (impact_score_severity_mono f s1 s2 r1 r2 H1 H2 Hlt) as Himp.
    cbn [total_impact foldr]. fold (total_impact post). lia. }
  split; [exact Htotal |].
  split; [rewrite !grade_of_total; apply grade_rank_mono; exact Htotal |].
  split; [apply grade_of_total |].
  split; [apply grade_of_total |].
  exact grade_rank_mono.
Qed.

(** C8 on one finding raised from low to critical. *)
Lemma severity_raise_monotone_witness :
  let f := mkFinding (Some "excessive_damages") None None None in
  let before := RiskCalculator.calculate_risk_score [set_severity f (Some "low")] in
  let after := RiskCalculator.calculate_risk_score [set_severity f (Some "critical")] in
  severity_rank "low" = Some 0 /\ severity_rank "critical" = Some 3 /\ 0 < 3
  /\ RiskCalculator.total_score before <= RiskCalculator.total_score after
  /\ grade_rank (RiskCalculator.grade before) <= grade_rank (RiskCalculator.grade after).
Proof.
  cbv zeta.
  split; [reflexivity |]. split; [reflexivity |]. split; [lia |].
  pose proof (severity_raise_monotone [] []
                (mkFinding (Some "excessive_damages") None None None)
                "low" "critical" 0 3 eq_refl eq_refl ltac:(lia)) as H.
  cbv zeta in H. cbn [app] in H.
  split; [exact (proj1 H) | exact (proj1 (proj2 H))].
Defined.

(** *** Termination of the text analysis *)

Lemma analysis_terminates (fuel : nat) (contract_text : text) (chunk_size : Z) :
  (exists r, PowerAnalyzer.analyze_power_balance (S (S fuel)) (Some contract_text) = Some r)
  /\ (exists r, PowerAnalyzer.analyze_power_balance (S (S fuel)) None = Some r)
  /\ (exists r,
        PowerAnalyzer.analyze_power_balance_chunked (S (S (S fuel))) contract_text chunk_size
        = Some r).
Proof.
  assert (Hplain : forall n, exists r,
             PowerAnalyzer.analyze_power_balance (S (S n)) (Some contract_text) = Some r).
  { intros n. cbn [PowerAnalyzer.analyze_power_balance].
    destruct (is_empty contract_text); [eauto |].
    destruct (Z.ltb_spec 1000 (len contract_text)) as [Hlong | Hshort];
      [| destruct (PowerAnalyzer._determine_power_level _); eauto].
    cbn [PowerAnalyzer.analyze_power_balance_chunked].
    destruct (Z.leb_spec (len contract_text) 500) as [Hle | Hgt]; [lia |].
    destruct (PowerAnalyzer.make_chunks contract_text 500) as [chunks | e]; [| eauto].
    destruct (fold_left PowerAnalyzer.chunk_body chunks (0, 0)) as [a b].
    destruct (PowerAnalyzer._determine_power_level _). eauto. }
  split; [apply Hplain |]. split; [cbn; eauto |].
  cbn [PowerAnalyzer.analyze_power_balance_chunked].
  destruct (len contract_text <=? chunk_size); [apply Hplain |].
  destruct (PowerAnalyzer.make_chunks contract_text chunk_size) as [chunks | e]; [| eauto].
  destruct (fold_left PowerAnalyzer.chunk_body chunks (0, 0)) as [a b].
  destruct (PowerAnalyzer._determine_power_level _). eauto.
Qed.

(** *** Empty and absent contract text *)

(** C2, as stated, fails: for the empty text the analysis of
    power_analyzer.py returns the error dictionary, not a neutral result. *)
Lemma empty_text_is_an_error :
  PowerAnalyzer.analyze_power_balance 3 (Some [])
    = Some (Ok (PowerAnalyzer.ErrorDict "계약서 내용이 없습니다"))
  /\ ~ neutral_analysis (PowerAnalyzer.analyze_power_balance 3 (Some [])).
Proof.
  split; [reflexivity |].
  intros (b & Hb & _). discriminate Hb.
Qed.

(** C2, amended: for the empty text the analysis of index.py returns the
    neutral result (score 50, level balanced, both counts zero);
    [analyze_power_balance] of power_analyzer.py returns the dictionary
    [{"error": ...}] for absent and for empty text, and
    [analyze_power_balance_chunked], with a non-negative chunk size,
    returns the same dictionary for empty text.  Each of these calls
    returns a value.  Absent text is stated for the plain analysis of
    power_analyzer.py only. *)
Theorem empty_text_results (fuel : nat) (chunk_size : Z) (Hsize : 0 <= chunk_size) :
  (let r := Index.analyze_power_balance [] in
   Index.balance_score r = 50
   /\ Index.balance_level r = "균형적"
   /\ Index.employer_rights_count r = 0
   /\ Index.employee_obligations_count r = 0)
  /\ PowerAnalyzer.analyze_power_balance (S fuel) None
       = Some (Ok (PowerAnalyzer.ErrorDict "계약서 내용이 없습니다"))
  /\ PowerAnalyzer.analyze_power_balance (S fuel) (Some [])
       = Some (Ok (PowerAnalyzer.ErrorDict "계약서 내용이 없습니다"))
  /\ PowerAnalyzer.analyze_power_balance_chunked (S (S fuel)) [] chunk_size
       = Some (Ok (PowerAnalyzer.ErrorDict "계약서 내용이 없습니다")).
Proof.
  split; [cbv zeta; repeat split; vm_compute; reflexivity |].
  split; [reflexivity |]. split; [reflexivity |].
  cbn [PowerAnalyzer.analyze_power_balance_chunked].
  replace (len [] <=? chunk_size) with true; [reflexivity |].
  symmetry. apply Z.leb_le. exact Hsize.
Qed.

(** The amended C2 at the default chunk size 500. *)
Lemma empty_text_results_witness :
  0 <= 500
  /\ PowerAnalyzer.analyze_power_balance_chunked 2 [] 500
       = Some (Ok (PowerAnalyzer.ErrorDict "계약서 내용이 없습니다")).
Proof.
  split; [lia |].
  apply (empty_text_results 0 500). lia.
Defined.

(** *** Counting a keyword across the pieces of a split *)

Lemma sum_int_from (xs : list Z) (a : Z) :
  fold_left Z.add xs a = a + sum_int xs.
Proof.
  unfold sum_int. revert a.
  induction xs as [| x xs IH]; intros a; cbn [fold_left].
  - lia.
  - rewrite (IH (a + x)), (IH (0 + x)). lia.
Qed.

Lemma sum_int_cons (x : Z) (xs : list Z) : sum_int (x :: xs) = x + sum_int xs.
Proof.
  unfold sum_int at 1. cbn [fold_left]. rewrite sum_int_from. lia.
Qed.

Lemma sum_int_app (xs ys : list Z) : sum_int (xs ++ ys) = sum_int xs + sum_int ys.
Proof.
  induction xs as [| x xs IH]; cbn [app].
  - reflexivity.
  - rewrite !sum_int_cons, IH. lia.
Qed.

Lemma startswith_length (sub s : text) :
  startswith sub s = true -> (length sub <= length s)%nat.
Proof.
  revert s. induction sub as [| a sub IH]; intros [| b s] H; cbn [length startswith] in *.
  - lia.
  - lia.
  - discriminate H.
  - apply andb_true_iff in H as [_ H]. apply IH in H. lia.
Qed.

Lemma count_nonempty (s kw : text) : kw <> [] -> count s kw = count_scan kw s 0.
Proof.
  intros Hkw. destruct kw; [contradiction | reflexivity].
Qed.

Section SplitCount.

Variable c : N.

Lemma split_shape (s : text) : exists p ps, split c s = p :: ps.
Proof.
  destruct s as [| a s]; cbn [split]; [eauto |].
  destruct (a =? c)%N; [eauto |].
  destruct (split c s); eauto.
Qed.

Lemma split_pieces_free (s : text) :
  Forall (fun p => contains c p = false) (split c s).
Proof.
  induction s as [| a s IH]; cbn [split].
  - repeat constructor.
  - destruct (N.eqb_spec a c) as [-> | Hne].
    + constructor; [reflexivity | exact IH].
    + destruct (split c s) as [| p ps]; [repeat constructor |].
      * cbn. apply orb_false_iff. split; [| reflexivity].
        apply N.eqb_neq. congruence.
      * inversion IH as [| ? ? Hp Hps]; subst. constructor; [| exact Hps].
        cbn. apply orb_false_iff. split; [| exact Hp].
        apply N.eqb_neq. congruence.
Qed.

Lemma startswith_first_piece (sub s p : text) (ps : list text) :
  contains c sub = false -> split c s = p :: ps ->
  startswith sub s = startswith sub p.
Proof.
  revert sub p ps. induction s as [| a s IH]; intros sub p ps Hfree Hsplit.
  - cbn in Hsplit. injection Hsplit as <- <-. reflexivity.
  - destruct sub as [| k sub]; [destruct p; reflexivity |].
    cbn in Hfree. apply orb_false_iff in Hfree as [Hk Hfree].
    cbn [split] in Hsplit.
    destruct (N.eqb_spec a c) as [-> | Hne].
    + injection Hsplit as <- <-. cbn [startswith].
      rewrite N.eqb_sym, Hk. reflexivity.
    + destruct (split_shape s) as (q & qs & Hq). rewrite Hq in Hsplit.
      injection Hsplit as <- <-. cbn [startswith].
      rewrite (IH sub q qs Hfree Hq). reflexivity.
Qed.

(** A keyword whose first character does not occur in [s] is not found. *)
Lemma count_scan_head_absent (k : N) (kw s : text) (skip : nat) :
  contains k s = false -> count_scan (k :: kw) s skip = 0.
Proof.
  revert skip. induction s as [| a s IH]; intros skip Hfree; cbn [count_scan].
  - reflexivity.
  - cbn in Hfree. apply orb_false_iff in Hfree as [Hk Hfree].
    destruct skip as [| skip]; [| apply IH; exact Hfree].
    cbn [startswith]. rewrite Hk. cbn [andb]. apply IH. exact Hfree.
Qed.

Variable kw : text.
Hypothesis kw_free : contains c kw = false.
Hypothesis kw_nonempty : kw <> [].

(** The scan of the whole text is the scan of the first piece, with the
    pending skip, plus fresh scans of the other pieces. *)
Lemma count_scan_split (s : text) :
  forall (skip : nat) (p : text) (ps : list text),
    split c s = p :: ps -> (skip <= length p)%nat ->
    count_scan kw s skip
    = count_scan kw p skip + sum_int (map (fun q => count_scan kw q 0) ps).
Proof.
  induction s as [| a s IH]; intros skip p ps Hsplit Hskip.
  - cbn in Hsplit. injection Hsplit as <- <-. reflexivity.
  - cbn [split] in Hsplit.
    destruct (split_shape s) as (q & qs & Hq).
    destruct (N.eqb_spec a c) as [-> | Hne].
    + injection Hsplit as <- <-. cbn [length] in Hskip.
      assert (skip = 0%nat) as -> by lia.
      cbn [count_scan]. rewrite Hq. cbn [map]. rewrite sum_int_cons.
      rewrite (IH 0%nat q qs Hq ltac:(lia)).
      destruct kw as [| k kw']; [contradiction |].
      cbn in kw_free. apply orb_false_iff in kw_free as [Hk _].
      cbn [startswith]. rewrite N.eqb_sym, Hk. cbn [andb]. lia.
    + rewrite Hq in Hsplit. injection Hsplit as <- <-.
      cbn [length] in Hskip. cbn [count_scan].
      destruct skip as [| skip].
      * rewrite (startswith_first_piece kw (a :: s) (a :: q) qs kw_free)
          by (cbn [split]; rewrite (proj2 (N.eqb_neq a c) Hne), Hq; reflexivity).
        destruct (startswith kw (a :: q)) eqn:Hstart.
        -- apply startswith_length in Hstart. cbn [length] in Hstart.
           rewrite (IH (length kw - 1)%nat q qs Hq ltac:(lia)). lia.
        -- rewrite (IH 0%nat q qs Hq ltac:(lia)). lia.
      * rewrite (IH skip q qs Hq ltac:(lia)). lia.
Qed.

Lemma count_split (s : text) : count s kw = pieces_total kw (split c s).
Proof.
  unfold pieces_total. rewrite (count_nonempty s kw kw_nonempty).
  destruct (split_shape s) as (p & ps & Hsplit). rewrite Hsplit.
  cbn [map]. rewrite sum_int_cons.
  rewrite (count_scan_split s 0%nat p ps Hsplit ltac:(lia)).
  rewrite (count_nonempty p kw kw_nonempty).
  f_equal. f_equal. apply map_ext. intros q.
  rewrite (count_nonempty q kw kw_nonempty). reflexivity.
Qed.

End SplitCount.

(** *** Blank chunks and sums over chunks *)

Lemma lstrip_nil (s : text) : lstrip s = [] -> forallb isspace s = true.
Proof.
  induction s as [| a s IH]; cbn [lstrip forallb]; [reflexivity |].
  destruct (isspace a); [exact IH | discriminate].
Qed.

Lemma lstrip_head (s t : text) (a : N) : lstrip s = a :: t -> isspace a = false.
Proof.
  induction s as [| b s IH]; cbn [lstrip]; [discriminate |].
  destruct (isspace b) eqn:Hb; [exact IH |].
  intros [= -> _]. exact Hb.
Qed.

Lemma strip_empty_blank (s : text) :
  is_empty (strip s) = true -> forallb isspace s = true.
Proof.
  unfold strip. intros Hempty.
  assert (Hrev : lstrip (rev (lstrip s)) = []).
  { destruct (lstrip (rev (lstrip s))) as [| a t] eqn:E; [reflexivity |].
    cbn [rev] in Hempty. destruct (rev t); discriminate Hempty. }
  apply lstrip_nil in Hrev.
  destruct (lstrip s) as [| a t] eqn:E; [apply lstrip_nil; exact E |].
  apply lstrip_head in E.
  rewrite forallb_forall in Hrev.
  rewrite (Hrev a) in E; [discriminate E |].
  apply in_rev. rewrite rev_involutive. left. reflexivity.
Qed.

Lemma count_blank (s kw : text) :
  forallb isspace s = true -> visible_head kw = true -> count s kw = 0.
Proof.
  intros Hblank Hkw. destruct kw as [| k kw]; [discriminate Hkw |].
  cbn [visible_head] in Hkw. apply negb_true_iff in Hkw.
  unfold count. apply count_scan_head_absent.
  unfold contains. destruct (existsb (N.eqb k) s) eqn:E; [| reflexivity].
  apply existsb_exists in E as (a & Ha & Heq). apply N.eqb_eq in Heq. subst a.
  rewrite forallb_forall in Hblank. rewrite (Hblank k Ha) in Hkw. discriminate Hkw.
Qed.

Lemma count_keywords_blank (s : text) (keywords : list text) :
  forallb isspace s = true -> forallb visible_head keywords = true ->
  PowerAnalyzer.count_keywords s keywords = 0.
Proof.
  intros Hblank. unfold PowerAnalyzer.count_keywords.
  induction keywords as [| kw kws IH]; cbn [forallb map]; [reflexivity |].
  intros H. apply andb_true_iff in H as [Hkw Hkws].
  rewrite sum_int_cons, (count_blank s kw Hblank Hkw), (IH Hkws). reflexivity.
Qed.

Lemma count_keywords_cons (s kw : text) (keywords : list text) :
  PowerAnalyzer.count_keywords s (kw :: keywords)
  = count s kw + PowerAnalyzer.count_keywords s keywords.
Proof.
  unfold PowerAnalyzer.count_keywords. cbn [map]. apply sum_int_cons.
Qed.

Lemma count_keywords_app (s : text) (xs ys : list text) :
  PowerAnalyzer.count_keywords s (xs ++ ys)
  = PowerAnalyzer.count_keywords s xs + PowerAnalyzer.count_keywords s ys.
Proof.
  unfold PowerAnalyzer.count_keywords. rewrite map_app. apply sum_int_app.
Qed.

Lemma chunk_loop_totals (chunks : list text) (a b : Z) :
  fold_left PowerAnalyzer.chunk_body chunks (a, b)
  = (a + sum_int (map (fun chunk =>
                         PowerAnalyzer.count_keywords chunk
                           PowerAnalyzer.EMPLOYER_RIGHTS_KEYWORDS) chunks),
     b + sum_int (map (fun chunk =>
                         PowerAnalyzer.count_keywords chunk
                           PowerAnalyzer.EMPLOYEE_OBLIGATIONS_KEYWORDS) chunks)).
Proof.
  revert a b. induction chunks as [| chunk chunks IH]; intros a b; cbn [fold_left map].
  - unfold sum_int. cbn. f_equal; lia.
  - rewrite !sum_int_cons. unfold PowerAnalyzer.chunk_body at 2.
    destruct (is_empty (strip chunk)) eqn:Hblank.
    + apply strip_empty_blank in Hblank.
      rewrite !(count_keywords_blank chunk _ Hblank) by (vm_compute; reflexivity).
      rewrite IH. f_equal; lia.
    + rewrite IH. f_equal; lia.
Qed.

Lemma sum_int_map_add {A : Type} (f g : A -> Z) (xs : list A) :
  sum_int (map (fun x => f x + g x) xs) = sum_int (map f xs) + sum_int (map g xs).
Proof.
  induction xs as [| x xs IH]; cbn [map]; [reflexivity |].
  rewrite !sum_int_cons, IH. lia.
Qed.

Lemma sum_int_map_zero {A : Type} (f : A -> Z) (xs : list A) :
  Forall (fun x => f x = 0) xs -> sum_int (map f xs) = 0.
Proof.
  induction 1 as [| x xs Hx _ IH]; cbn [map]; [reflexivity |].
  rewrite sum_int_cons, Hx, IH. reflexivity.
Qed.

Lemma sum_int_map_ext {A : Type} (f g : A -> Z) (xs : list A) :
  Forall (fun x => f x = g x) xs -> sum_int (map f xs) = sum_int (map g xs).
Proof.
  induction 1 as [| x xs Hx _ IH]; cbn [map]; [reflexivity |].
  rewrite !sum_int_cons, Hx, IH. reflexivity.
Qed.

(** Summing keyword counts chunk by chunk or keyword by keyword. *)
Lemma chunks_keywords_exchange (chunks keywords : list text) :
  sum_int (map (fun chunk => PowerAnalyzer.count_keywords chunk keywords) chunks)
  = sum_int (map (fun kw => pieces_total kw chunks) keywords).
Proof.
  induction chunks as [| chunk chunks IH]; cbn [map].
  - symmetry. apply sum_int_map_zero. apply Forall_forall. intros kw _. reflexivity.
  - rewrite sum_int_cons, IH. unfold PowerAnalyzer.count_keywords.
    rewrite <- sum_int_map_add. apply sum_int_map_ext.
    apply Forall_forall. intros kw _. unfold pieces_total. cbn [map].
    rewrite sum_int_cons. reflexivity.
Qed.

Lemma pieces_total_free (c : N) (s : text) (keywords : list text) :
  forallb (fun kw => negb (contains c kw) && visible_head kw) keywords = true ->
  sum_int (map (fun kw => pieces_total kw (split c s)) keywords)
  = PowerAnalyzer.count_keywords s keywords.
Proof.
  intros Hall. unfold PowerAnalyzer.count_keywords.
  apply sum_int_map_ext. apply Forall_forall. intros kw Hin.
  rewrite forallb_forall in Hall. specialize (Hall kw (proj1 (list_elem_of_In _ _) Hin)).
  apply andb_true_iff in Hall as [Hfree Hvis]. apply negb_true_iff in Hfree.
  symmetry. apply count_split; [exact Hfree |].
  destruct kw; [discriminate Hvis | discriminate].
Qed.

Lemma pieces_total_at_separator (c : N) (s kw : text) :
  pieces_total (c :: kw) (split c s) = 0.
Proof.
  unfold pieces_total. apply sum_int_map_zero.
  eapply Forall_impl; [apply split_pieces_free |].
  intros p Hp. cbn beta in Hp |- *. unfold count. apply count_scan_head_absent. exact Hp.
Qed.

(** The counts of the article split, for every text: the employer count
    of a single pass, and the employee count of a single pass less the
    occurrences of "제한", the one keyword that starts with the marker. *)
Lemma article_split_counts (fuel : nat) (contract_text : text) (chunk_size : Z) :
  contains (char "제") contract_text = true ->
  contains (char "조") contract_text = true ->
  chunk_size < len contract_text ->
  exists b,
    PowerAnalyzer.analyze_power_balance_chunked (S fuel) contract_text chunk_size
    = Some (Ok (PowerAnalyzer.Balance b))
    /\ PowerAnalyzer.employer_rights_count b
       = PowerAnalyzer.count_keywords contract_text PowerAnalyzer.EMPLOYER_RIGHTS_KEYWORDS
    /\ PowerAnalyzer.employee_obligations_count b
       = PowerAnalyzer.count_keywords contract_text
           PowerAnalyzer.EMPLOYEE_OBLIGATIONS_KEYWORDS
         - count contract_text (u "제한").
Proof.
  intros Hje Hjo Hlen.
  cbn [PowerAnalyzer.analyze_power_balance_chunked].
  destruct (Z.leb_spec (len contract_text) chunk_size) as [Hle | _]; [lia |].
  unfold PowerAnalyzer.make_chunks. rewrite Hje, Hjo. cbn [andb].
  rewrite chunk_loop_totals, !chunks_keywords_exchange.
  rewrite (pieces_total_free (char "제") contract_text
             PowerAnalyzer.EMPLOYER_RIGHTS_KEYWORDS)
    by (vm_compute; reflexivity).
  set (before := map u ["하여야 한다"; "의무를 진다"; "책임을 진다"; "배상"; "금지"]).
  set (after := map u ["승인을 받아야"; "통보하여야"; "준수하여야"]).
  assert (Hsplit : PowerAnalyzer.EMPLOYEE_OBLIGATIONS_KEYWORDS
                   = before ++ (char "제" :: u "한") :: after)
    by (vm_compute; reflexivity).
  assert (Hlimit : u "제한" = char "제" :: u "한") by (vm_compute; reflexivity).
  rewrite Hlimit, Hsplit.
  rewrite map_app, sum_int_app. cbn [map]. rewrite sum_int_cons.
  rewrite pieces_total_at_separator.
  rewrite !(pieces_total_free (char "제") contract_text) by (vm_compute; reflexivity).
  rewrite count_keywords_app, count_keywords_cons.
  destruct (PowerAnalyzer._determine_power_level _) as [level fairness].
  eexists. split; [reflexivity |].
  cbn [PowerAnalyzer.employer_rights_count PowerAnalyzer.employee_obligations_count].
  split; lia.
Qed.

(** *** Chunked analysis against a single pass *)

(** C3 at a failing input: on [article_with_limit] the single pass over
    the text counts one employee keyword ("제한"), the chunked analysis,
    which splits at every "제", counts none. *)
Theorem chunked_loses_keyword_at_marker :
  PowerAnalyzer.count_keywords article_with_limit PowerAnalyzer.EMPLOYER_RIGHTS_KEYWORDS = 0
  /\ PowerAnalyzer.count_keywords article_with_limit PowerAnalyzer.EMPLOYEE_OBLIGATIONS_KEYWORDS = 1
  /\ contains (char "제") article_with_limit = true
  /\ contains (char "조") article_with_limit = true
  /\ exists b,
       PowerAnalyzer.analyze_power_balance 3 (Some article_with_limit)
         = Some (Ok (PowerAnalyzer.Balance b))
       /\ PowerAnalyzer.processing_method b = Some "chunked"
       /\ PowerAnalyzer.employer_rights_count b = 0
       /\ PowerAnalyzer.employee_obligations_count b = 0.
Proof.
  repeat split; try (vm_compute; reflexivity).
  eexists. split; [vm_compute; reflexivity |].
  repeat split.
Qed.

(** *** Unknown severities *)

(** C4 at failing inputs: an unknown severity makes both entry points of
    index.py raise [KeyError], while the aggregator of risk_calculator.py
    and the weighted balance of power_analyzer.py return with the default
    multiplier and the default weight. *)
Theorem unknown_severity_raises :
  Index.analyze_contract_risk [mkFinding (Some "unclear_scope") (Some "severe") None None]
    = Raise (KeyError "severe")
  /\ Index.analyze_power_balance_weighted [mkPowerItem (Some "을은 배상한다") (Some "severe")] []
    = Raise (KeyError "severe")
  /\ Index.analyze_power_balance_weighted [] [mkPowerItem (Some "갑은 해지할 수 있다") (Some "severe")]
    = Raise (KeyError "severe")
  /\ RiskCalculator.total_score
       (RiskCalculator.calculate_risk_score
          [mkFinding (Some "unclear_scope") (Some "severe") None None]) = 15
  /\ (val (PowerAnalyzer.employee_weighted_score
             (PowerAnalyzer.calculate_power_balance_weighted
                [] [mkPowerItem (Some "을은 배상한다") (Some "severe")])) == 1)%Q.
Proof.
  repeat split; vm_compute; reflexivity.
Qed.

(** *** The risk score of index.py *)

Lemma zero_counts_has_levels : has_levels Index.zero_counts.
Proof.
  intros s Hs. destruct (severity_rank s) as [r |] eqn:Hr; [| congruence].
  apply severity_rank_cases in Hr.
  destruct Hr as [[-> _] | [[-> _] | [[-> _] | [-> _]]]]; vm_compute; eauto.
Qed.

Lemma increment_known (counts : gmap string Z) (s : string) :
  has_levels counts -> severity_rank s <> None ->
  exists counts', Index.increment counts s = Ok counts' /\ has_levels counts'.
Proof.
  intros Hlev Hs. unfold Index.increment, getitem.
  destruct (Hlev s Hs) as [n Hn]. rewrite Hn. cbn [bind].
  eexists. split; [reflexivity |].
  intros s' Hs'. destruct (decide (s = s')) as [-> | Hne].
  - rewrite lookup_insert_eq. eauto.
  - rewrite lookup_insert_ne by exact Hne. apply Hlev. exact Hs'.
Qed.

Lemma default_low_known (f : Finding) :
  known_severity f -> severity_rank (default "low" (severity f)) <> None.
Proof.
  unfold known_severity. destruct (severity f) as [s |]; cbn; [tauto | discriminate].
Qed.

Lemma risk_loop_known (findings : list Finding) :
  Forall known_severity findings ->
  forall (total : Z) (cats counts : gmap string Z),
    has_levels counts ->
    exists cats' counts',
      for_each Index.risk_body findings (total, cats, counts)
      = Ok (fold_left Z.add (map index_weight findings) total, cats', counts')
      /\ has_levels counts'.
Proof.
  induction 1 as [| f fs Hf _ IH]; intros total cats counts Hlev; cbn [for_each map fold_left].
  - eauto.
  - unfold Index.risk_body at 1.
    destruct (increment_known counts (default "low" (severity f)) Hlev
                (default_low_known f Hf)) as (counts1 & Hinc & Hlev1).
    rewrite Hinc. cbn [bind]. apply IH. exact Hlev1.
Qed.

(** On findings whose severities are known or missing, the risk score of
    index.py is the plain sum of the severity weights, without a cap. *)
Lemma index_risk_total_known (findings : list Finding) :
  Forall known_severity findings ->
  exists r, Index.analyze_contract_risk findings = Ok r
            /\ Index.total_score r = sum_int (map index_weight findings).
Proof.
  intros Hknown.
  destruct (risk_loop_known findings Hknown 0 ∅ Index.zero_counts zero_counts_has_levels)
    as (cats & counts & Hloop & Hlev).
  unfold Index.analyze_contract_risk. rewrite Hloop. cbn [bind].
  destruct (Hlev "critical" ltac:(discriminate)) as [n Hn].
  unfold getitem. rewrite Hn. cbn [bind].
  repeat match goal with
         | |- context [?a <=? ?b] => destruct (a <=? b)
         end; eexists; split; reflexivity.
Qed.

Lemma index_weight_table (c m l : option string) :
  index_weight (mkFinding c (Some "critical") m l) = 10
  /\ index_weight (mkFinding c (Some "high") m l) = 7
  /\ index_weight (mkFinding c (Some "medium") m l) = 4
  /\ index_weight (mkFinding c (Some "low") m l) = 2
  /\ index_weight (mkFinding c None m l) = 2.
Proof.
  repeat split.
Qed.

Lemma index_risk_eleven_critical :
  exists r,
    Index.analyze_contract_risk
      (repeat (mkFinding (Some "unilateral_termination") (Some "critical") None None) 11)
    = Ok r
    /\ Index.total_score r = 110.
Proof.
  eexists. split; [vm_compute; reflexivity | reflexivity].
Qed.

(** C10 at a failing input: for a critical finding followed by one of
    unknown severity the weights sum to 10 + 0, but analyze_contract_risk
    raises [KeyError] at the severity counter and returns no score. *)
Theorem index_risk_unknown_severity_no_score :
  let findings :=
    [ mkFinding (Some "unilateral_termination") (Some "critical") None None;
      mkFinding (Some "payment_delay") (Some "urgent") None None ] in
  sum_int (map index_weight findings) = 10
  /\ Index.analyze_contract_risk findings = Raise (KeyError "urgent").
Proof.
  cbv zeta. split; vm_compute; reflexivity.
Qed.

(** *** Bounds on binary64 rounding *)

Lemma round_half_even_le (n d K : Z) :
  0 < d -> n <= K * d -> F64.round_half_even n d <= K.
Proof.
  intros Hd Hn. unfold F64.round_half_even.
  pose proof (Z.div_mod n d ltac:(lia)) as Hdm.
  pose proof (Z.mod_pos_bound n d Hd) as Hr.
  assert (Hq : n / d <= K) by nia.
  destruct (Z.eq_dec (n / d) K) as [Heq | Hne].
  - assert (Hr0 : n mod d = 0) by nia.
    rewrite Hr0.
    assert (Hc : (2 * 0 ?= d) = Lt) by (apply Z.compare_lt_iff; lia).
    rewrite Hc. lia.
  - destruct (2 * (n mod d) ?= d); [destruct (Z.even (n / d)) | |]; lia.
Qed.

Lemma round_half_even_ge (n d K : Z) :
  0 < d -> K * d <= n -> K <= F64.round_half_even n d.
Proof.
  intros Hd Hn. unfold F64.round_half_even.
  pose proof (Z.div_mod n d ltac:(lia)) as Hdm.
  pose proof (Z.mod_pos_bound n d Hd) as Hr.
  assert (Hq : K <= n / d) by nia.
  destruct (2 * (n mod d) ?= d); [destruct (Z.even (n / d)) | |]; lia.
Qed.

Lemma floor_log2_le_52 (n d B : Z) :
  0 < n -> 0 < d -> 0 < B < 2 ^ 53 -> n <= B * d -> F64.floor_log2 n d <= 52.
Proof.
  intros Hn Hd HB Hle. unfold F64.floor_log2.
  assert (Hk : Z.log2 n - Z.log2 d <= 53).
  { assert (Z.log2 n <= Z.log2 (B * d)) by (apply Z.log2_le_mono; exact Hle).
    pose proof (Z.log2_mul_above B d ltac:(lia) ltac:(lia)).
    assert (Z.log2 B < 53) by (apply Z.log2_lt_pow2; lia).
    lia. }
  set (k := Z.log2 n - Z.log2 d) in *.
  destruct (Z.leb_spec (d * 2 ^ Z.max 0 k) (n * 2 ^ Z.max 0 (- k))) as [Hc | Hc]; [| lia].
  destruct (Z.eq_dec k 53) as [Hk53 | ]; [| lia].
  exfalso. rewrite Hk53 in Hc.
  change (Z.max 0 53) with 53 in Hc.
  change (2 ^ Z.max 0 (Z.opp 53)) with 1 in Hc.
  assert (B * d < 2 ^ 53 * d) by (apply Z.mul_lt_mono_pos_r; lia).
  lia.
Qed.

Lemma rn_pos_nonneg (n d : Z) : 0 < n -> 0 < d -> (0 <= F64.rn_pos n d)%Q.
Proof.
  intros Hn Hd. unfold F64.rn_pos, Qle. cbn [Qnum Qden].
  set (e := Z.max (F64.floor_log2 n d - 52) (- 1074)).
  assert (Hp1 : 0 < 2 ^ Z.max 0 e) by (apply Z.pow_pos_nonneg; lia).
  assert (Hp2 : 0 < 2 ^ Z.max 0 (- e)) by (apply Z.pow_pos_nonneg; lia).
  assert (0 <= F64.round_half_even (n * 2 ^ Z.max 0 (- e)) (d * 2 ^ Z.max 0 e)).
  { apply round_half_even_ge; nia. }
  nia.
Qed.

Lemma rn_pos_le_int (n d B : Z) :
  0 < n -> 0 < d -> 0 < B < 2 ^ 53 -> n <= B * d ->
  (F64.rn_pos n d <= inject_Z B)%Q.
Proof.
  intros Hn Hd HB Hle.
  pose proof (floor_log2_le_52 n d B Hn Hd HB Hle) as Hfl.
  unfold F64.rn_pos.
  set (e := Z.max (F64.floor_log2 n d - 52) (- 1074)).
  assert (He : e <= 0) by lia.
  replace (Z.max 0 e) with 0 by lia.
  replace (Z.max 0 (- e)) with (- e) by lia.
  change (2 ^ 0) with 1. rewrite !Z.mul_1_r.
  assert (Hp : 0 < 2 ^ (- e)) by (apply Z.pow_pos_nonneg; lia).
  unfold Qle, inject_Z. cbn [Qnum Qden].
  rewrite Z2Pos.id by exact Hp. rewrite Z.mul_1_r.
  apply round_half_even_le; [exact Hd | nia].
Qed.

Lemma rn_nonneg (x : Q) : (0 <= x)%Q -> (0 <= F64.rn x)%Q.
Proof.
  intros Hx. unfold F64.rn.
  destruct x as [[| n | n] d]; cbn [Qnum Qden].
  - apply Qle_refl.
  - apply rn_pos_nonneg; lia.
  - exfalso. unfold Qle in Hx. cbn in Hx. lia.
Qed.

Lemma rn_le_int (x : Q) (B : Z) :
  0 < B < 2 ^ 53 -> (x <= inject_Z B)%Q -> (F64.rn x <= inject_Z B)%Q.
Proof.
  intros HB Hx. unfold F64.rn.
  destruct x as [[| n | n] d]; cbn [Qnum Qden].
  - unfold Qle. cbn. lia.
  - apply rn_pos_le_int; [lia | lia | exact HB |].
    unfold Qle in Hx. cbn in Hx. lia.
  - apply Qle_trans with 0%Q.
    + pose proof (rn_pos_nonneg (Z.pos n) (Z.pos d) ltac:(lia) ltac:(lia)) as Hpos.
      unfold Qle, Qopp in Hpos |- *. cbn [Qnum Qden] in Hpos |- *. lia.
    + unfold Qle. cbn. lia.
Qed.

(** The percentage of the balance functions, [round((a / total) * 100)],
    stays within 0 and 100 when [0 <= a <= total] and [total] is not zero. *)
Lemma percentage_bounds (a total : Z) :
  0 <= a <= total -> total <> 0 ->
  0 <= F64.round (F64.mul (F64.truediv a total) (F64.of_int 100)) <= 100.
Proof.
  intros Ha Ht.
  assert (Hq : (0 <= inject_Z a / inject_Z total)%Q /\ (inject_Z a / inject_Z total <= inject_Z 1)%Q).
  { destruct total as [| p | p]; [lia | | lia].
    unfold Qdiv, Qinv, Qmult, Qle, inject_Z. cbn [Qnum Qden]. cbn. lia. }
  destruct Hq as [Hq0 Hq1].
  assert (Hx0 : (0 <= F64.truediv a total)%Q) by (apply rn_nonneg; exact Hq0).
  assert (Hx1 : (F64.truediv a total <= inject_Z 1)%Q)
    by (apply rn_le_int; [lia | exact Hq1]).
  assert (Hc : (F64.of_int 100 == inject_Z 100)%Q) by (vm_compute; reflexivity).
  set (x := F64.truediv a total) in *.
  assert (Hy0 : (0 <= x * F64.of_int 100)%Q).
  { rewrite Hc. apply Qmult_le_0_compat; [exact Hx0 |]. unfold Qle; cbn; lia. }
  assert (Hy1 : (x * F64.of_int 100 <= inject_Z 100)%Q).
  { rewrite Hc. apply Qle_trans with (inject_Z 1 * inject_Z 100)%Q.
    - apply Qmult_le_compat_r; [exact Hx1 |]. unfold Qle; cbn; lia.
    - unfold Qle; cbn; lia. }
  assert (Hz0 : (0 <= F64.mul x (F64.of_int 100))%Q) by (apply rn_nonneg; exact Hy0).
  assert (Hz1 : (F64.mul x (F64.of_int 100) <= inject_Z 100)%Q)
    by (apply rn_le_int; [lia | exact Hy1]).
  set (z := F64.mul x (F64.of_int 100)) in *.
  unfold F64.round. unfold Qle in Hz0, Hz1. cbn [Qnum Qden inject_Z] in Hz0, Hz1.
  split.
  - apply round_half_even_ge; lia.
  - apply round_half_even_le; lia.
Qed.

(** *** Rounding depends on the value, not on the fraction *)

Lemma ge_pow2_scale (k n d e : Z) :
  0 < k -> (ge_pow2 (k * n) (k * d) e <-> ge_pow2 n d e).
Proof.
  intros Hk. unfold ge_pow2. rewrite <- !Z.mul_assoc.
  symmetry. apply Z.mul_le_mono_pos_l. exact Hk.
Qed.

Lemma ge_pow2_down (n d e e' : Z) :
  0 < n -> 0 < d -> e <= e' -> ge_pow2 n d e' -> ge_pow2 n d e.
Proof.
  intros Hn Hd Hle. unfold ge_pow2. intros H.
  assert (H1 : 2 ^ Z.max 0 e <= 2 ^ Z.max 0 e') by (apply Z.pow_le_mono_r; lia).
  assert (H2 : 2 ^ Z.max 0 (- e') <= 2 ^ Z.max 0 (- e)) by (apply Z.pow_le_mono_r; lia).
  apply Z.le_trans with (d * 2 ^ Z.max 0 e'); [nia |].
  apply Z.le_trans with (n * 2 ^ Z.max 0 (- e')); [exact H | nia].
Qed.

Lemma floor_log2_spec (n d : Z) :
  0 < n -> 0 < d ->
  ge_pow2 n d (F64.floor_log2 n d) /\ ~ ge_pow2 n d (F64.floor_log2 n d + 1).
Proof.
  intros Hn Hd.
  destruct (Z.log2_spec n Hn) as [Hn1 Hn2]. destruct (Z.log2_spec d Hd) as [Hd1 Hd2].
  pose proof (Z.log2_nonneg n) as Ha. pose proof (Z.log2_nonneg d) as Hb.
  set (a := Z.log2 n) in *. set (b := Z.log2 d) in *.
  assert (Hlow : ge_pow2 n d (a - b - 1)).
  { unfold ge_pow2. destruct (Z.le_gt_cases (b + 1) a) as [Hc | Hc].
    - replace (Z.max 0 (a - b - 1)) with (a - b - 1) by lia.
      replace (Z.max 0 (- (a - b - 1))) with 0 by lia.
      change (2 ^ 0) with 1.
      assert (2 ^ a = 2 ^ (b + 1) * 2 ^ (a - b - 1))
        by (rewrite <- Z.pow_add_r by lia; f_equal; lia).
      assert (0 < 2 ^ (a - b - 1)) by (apply Z.pow_pos_nonneg; lia).
      replace (Z.succ b) with (b + 1) in Hd2 by lia. nia.
    - replace (Z.max 0 (a - b - 1)) with 0 by lia.
      replace (Z.max 0 (- (a - b - 1))) with (b + 1 - a) by lia.
      change (2 ^ 0) with 1.
      assert (2 ^ (b + 1) = 2 ^ a * 2 ^ (b + 1 - a))
        by (rewrite <- Z.pow_add_r by lia; f_equal; lia).
      assert (0 < 2 ^ (b + 1 - a)) by (apply Z.pow_pos_nonneg; lia).
      replace (Z.succ b) with (b + 1) in Hd2 by lia. nia. }
  assert (Hhigh : ~ ge_pow2 n d (a - b + 1)).
  { unfold ge_pow2. destruct (Z.le_gt_cases b (a + 1)) as [Hc | Hc].
    - replace (Z.max 0 (a - b + 1)) with (a + 1 - b) by lia.
      replace (Z.max 0 (- (a - b + 1))) with 0 by lia.
      change (2 ^ 0) with 1.
      assert (2 ^ (a + 1) = 2 ^ b * 2 ^ (a + 1 - b))
        by (rewrite <- Z.pow_add_r by lia; f_equal; lia).
      assert (0 < 2 ^ (a + 1 - b)) by (apply Z.pow_pos_nonneg; lia).
      replace (Z.succ a) with (a + 1) in Hn2 by lia. nia.
    - replace (Z.max 0 (a - b + 1)) with 0 by lia.
      replace (Z.max 0 (- (a - b + 1))) with (b - a - 1) by lia.
      change (2 ^ 0) with 1.
      assert (2 ^ b = 2 ^ (a + 1) * 2 ^ (b - a - 1))
        by (rewrite <- Z.pow_add_r by lia; f_equal; lia).
      assert (0 < 2 ^ (b - a - 1)) by (apply Z.pow_pos_nonneg; lia).
      replace (Z.succ a) with (a + 1) in Hn2 by lia. nia. }
  unfold F64.floor_log2. fold a. fold b.
  destruct (Z.leb_spec (d * 2 ^ Z.max 0 (a - b)) (n * 2 ^ Z.max 0 (- (a - b)))) as [Ht | Ht].
  - split; [exact Ht | exact Hhigh].
  - split; [exact Hlow |]. replace (a - b - 1 + 1) with (a - b) by lia.
    unfold ge_pow2. lia.
Qed.

Lemma floor_log2_unique (n d e : Z) :
  0 < n -> 0 < d -> ge_pow2 n d e -> ~ ge_pow2 n d (e + 1) -> F64.floor_log2 n d = e.
Proof.
  intros Hn Hd He1 He2.
  destruct (floor_log2_spec n d Hn Hd) as [Hf1 Hf2].
  destruct (Z.lt_trichotomy (F64.floor_log2 n d) e) as [Hlt | [Heq | Hgt]]; [| exact Heq |].
  - exfalso. apply Hf2. apply (ge_pow2_down n d _ e Hn Hd); [lia | exact He1].
  - exfalso. apply He2. apply (ge_pow2_down n d _ (F64.floor_log2 n d) Hn Hd); [lia | exact Hf1].
Qed.

Lemma floor_log2_scale (k n d : Z) :
  0 < k -> 0 < n -> 0 < d -> F64.floor_log2 (k * n) (k * d) = F64.floor_log2 n d.
Proof.
  intros Hk Hn Hd.
  destruct (floor_log2_spec n d Hn Hd) as [H1 H2].
  apply floor_log2_unique; [nia | nia | |].
  - apply ge_pow2_scale; assumption.
  - intros H. apply H2. apply (ge_pow2_scale k); assumption.
Qed.

Lemma round_half_even_scale (k n d : Z) :
  0 < k -> 0 < d -> F64.round_half_even (k * n) (k * d) = F64.round_half_even n d.
Proof.
  intros Hk Hd. unfold F64.round_half_even.
  rewrite Z.div_mul_cancel_l by lia.
  rewrite Z.mul_mod_distr_l by lia.
  replace (2 * (k * (n mod d))) with (k * (2 * (n mod d))) by lia.
  rewrite <- (Zmult_compare_compat_l (2 * (n mod d)) d k) by lia.
  reflexivity.
Qed.

Lemma rn_pos_scale (k n d : Z) :
  0 < k -> 0 < n -> 0 < d -> F64.rn_pos (k * n) (k * d) = F64.rn_pos n d.
Proof.
  intros Hk Hn Hd. unfold F64.rn_pos.
  rewrite floor_log2_scale by assumption.
  set (e := Z.max (F64.floor_log2 n d - 52) (- 1074)).
  assert (0 < 2 ^ Z.max 0 e) by (apply Z.pow_pos_nonneg; lia).
  rewrite <- !Z.mul_assoc, round_half_even_scale by nia.
  reflexivity.
Qed.

(** Equal rationals round to the same binary64 number. *)
Lemma rn_compat (x y : Q) : (x == y)%Q -> F64.rn x = F64.rn y.
Proof.
  destruct x as [xn xd], y as [yn yd]. unfold Qeq, F64.rn. cbn [Qnum Qden]. intros Heq.
  destruct xn as [| p | p], yn as [| q | q]; try lia; try reflexivity.
  - rewrite <- (rn_pos_scale (Z.pos yd) (Z.pos p) (Z.pos xd)) by lia.
    rewrite <- (rn_pos_scale (Z.pos xd) (Z.pos q) (Z.pos yd)) by lia.
    f_equal; lia.
  - rewrite <- (rn_pos_scale (Z.pos yd) (Z.pos p) (Z.pos xd)) by lia.
    rewrite <- (rn_pos_scale (Z.pos xd) (Z.pos q) (Z.pos yd)) by lia.
    f_equal. f_equal; lia.
Qed.

Lemma truediv_scale (k a b : Z) :
  0 < k -> 0 < b -> F64.truediv (k * a) (k * b) = F64.truediv a b.
Proof.
  intros Hk Hb. unfold F64.truediv. apply rn_compat.
  destruct b as [| p | p]; try lia. destruct k as [| j | j]; try lia.
  unfold Qeq, Qdiv, Qmult, Qinv, inject_Z. cbn [Qnum Qden].
  change (Z.pos j * Z.pos p) with (Z.pos (j * p)). cbn [Qnum Qden]. nia.
Qed.

(** *** Accuracy of binary64 rounding *)

Lemma floor_log2_le (n d b : Z) :
  0 < n -> 0 < d -> 0 <= b -> n <= 2 ^ b * d -> F64.floor_log2 n d <= b.
Proof.
  intros Hn Hd Hb Hle.
  destruct (floor_log2_spec n d Hn Hd) as [Hspec _].
  destruct (Z.le_gt_cases (F64.floor_log2 n d) b) as [Hok | Hgt]; [exact Hok | exfalso].
  apply (ge_pow2_down n d (b + 1)) in Hspec; [| assumption | assumption | lia].
  unfold ge_pow2 in Hspec.
  replace (Z.max 0 (b + 1)) with (b + 1) in Hspec by lia.
  replace (Z.max 0 (- (b + 1))) with 0 in Hspec by lia.
  change (2 ^ 0) with 1 in Hspec.
  rewrite Z.pow_add_r in Hspec by lia. change (2 ^ 1) with 2 in Hspec.
  assert (0 < 2 ^ b) by (apply Z.pow_pos_nonneg; lia). nia.
Qed.

(** The nearest integer is within one half of the quotient. *)
Lemma round_half_even_error (n d : Z) :
  0 < d -> - d <= 2 * (F64.round_half_even n d * d - n) <= d.
Proof.
  intros Hd. unfold F64.round_half_even.
  pose proof (Z.div_mod n d ltac:(lia)) as Hdm.
  pose proof (Z.mod_pos_bound n d Hd) as Hr.
  destruct (Z.compare_spec (2 * (n mod d)) d) as [Heq | Hlt | Hgt];
    [destruct (Z.even (n / d)) | |]; nia.
Qed.

(** A value between 0 and [2 ^ b] is rounded with an error of at most
    [2 ^ (b - 53)]. *)
Lemma rn_error (x : Q) (b : Z) :
  0 <= b <= 52 -> (0 <= x)%Q -> (x <= inject_Z (2 ^ b))%Q ->
  (Qabs (F64.rn x - x) <= 1 # Z.to_pos (2 ^ (53 - b)))%Q.
Proof.
  intros Hb Hx0 Hx1.
  assert (HK : 0 < 2 ^ (53 - b)) by (apply Z.pow_pos_nonneg; lia).
  destruct x as [[| n | n] d]; unfold F64.rn; cbn [Qnum Qden].
  - unfold Qabs, Qminus, Qplus, Qopp, Qle. cbn. lia.
  - unfold Qle, inject_Z in Hx1. cbn [Qnum Qden] in Hx1. rewrite Z.mul_1_r in Hx1.
    pose proof (floor_log2_le (Z.pos n) (Z.pos d) b ltac:(lia) ltac:(lia) ltac:(lia) Hx1)
      as Hfl.
    unfold F64.rn_pos.
    set (e := Z.max (F64.floor_log2 (Z.pos n) (Z.pos d) - 52) (- 1074)).
    assert (He : e <= b - 52) by lia.
    replace (Z.max 0 e) with 0 by lia.
    replace (Z.max 0 (- e)) with (- e) by lia.
    change (2 ^ 0) with 1. rewrite !Z.mul_1_r.
    set (P := 2 ^ (- e)).
    assert (HP : 0 < P) by (apply Z.pow_pos_nonneg; lia).
    assert (HKP : 2 ^ (53 - b) <= 2 * P).
    { subst P. change 2 with (2 ^ 1) at 2. rewrite <- Z.pow_add_r by lia.
      apply Z.pow_le_mono_r; lia. }
    pose proof (round_half_even_error (Z.pos n * P) (Z.pos d) ltac:(lia)) as Herr.
    set (m := F64.round_half_even (Z.pos n * P) (Z.pos d)) in *.
    unfold Qabs, Qminus, Qplus, Qopp, Qle. cbn [Qnum Qden].
    rewrite Pos2Z.inj_mul, !Z2Pos.id by assumption.
    set (A := Z.abs (m * Z.pos d + - Z.pos n * P)).
    assert (HA : 0 <= A /\ 2 * A <= Z.pos d) by (subst A; lia).
    apply Z.le_trans with (A * (2 * P)); [apply Z.mul_le_mono_nonneg_l; lia |].
    nia.
  - exfalso. unfold Qle in Hx0. cbn in Hx0. lia.
Qed.

(** [round] of a binary64 value is within one half of it. *)
Lemma round_error (z : Q) :
  (- (1 # 2) <= inject_Z (F64.round z) - z <= 1 # 2)%Q.
Proof.
  destruct z as [n d]. unfold F64.round. cbn [Qnum Qden].
  pose proof (round_half_even_error n (Z.pos d) ltac:(lia)) as Herr.
  set (m := F64.round_half_even n (Z.pos d)) in *.
  unfold Qminus, Qplus, Qopp, Qle, inject_Z. cbn [Qnum Qden].
  rewrite !Z.mul_1_r. cbn [Pos.mul]. lia.
Qed.

(** The percentage of the balance functions, [round((a / total) * 100)],
    is the exact percentage up to one half and [2 ^ -45]. *)
Lemma percentage_accuracy (a total : Z) :
  0 <= a <= total -> total <> 0 ->
  (Qabs (inject_Z (F64.round (F64.mul (F64.truediv a total) (F64.of_int 100)))
         - 100 * (inject_Z a / inject_Z total))
   <= (1 # 2) + (1 # 35184372088832))%Q.
Proof.
  intros Ha Ht.
  assert (Hq : (0 <= inject_Z a / inject_Z total)%Q
               /\ (inject_Z a / inject_Z total <= inject_Z 1)%Q).
  { destruct total as [| p | p]; [lia | | lia].
    unfold Qdiv, Qinv, Qmult, Qle, inject_Z. cbn [Qnum Qden]. cbn. lia. }
  destruct Hq as [Hq0 Hq1].
  set (x := (inject_Z a / inject_Z total)%Q) in *.
  pose proof (rn_error x 0 ltac:(lia) Hq0 Hq1) as Hx.
  assert (Hx0 : (0 <= F64.rn x)%Q) by (apply rn_nonneg; exact Hq0).
  assert (Hx1 : (F64.rn x <= inject_Z 1)%Q) by (apply rn_le_int; [lia | exact Hq1]).
  unfold F64.truediv, F64.mul. fold x.
  let c := eval vm_compute in (F64.of_int 100) in change (F64.of_int 100) with c.
  set (x1 := F64.rn x) in *.
  set (y := (x1 * (7036874417766400 # 70368744177664))%Q).
  change (inject_Z 1) with 1%Q in Hx1.
  assert (Hy0 : (0 <= y)%Q) by (subst y; lra).
  assert (Hy1 : (y <= inject_Z (2 ^ 7))%Q) by (subst y; change (inject_Z (2 ^ 7)) with 128%Q; lra).
  pose proof (rn_error y 7 ltac:(lia) Hy0 Hy1) as Hy.
  pose proof (round_error (F64.rn y)) as Hz.
  set (z := F64.rn y) in *. set (s := inject_Z (F64.round z)) in *.
  change (1 # Z.to_pos (2 ^ (53 - 0))) with (1 # 9007199254740992)%Q in Hx.
  change (1 # Z.to_pos (2 ^ (53 - 7))) with (1 # 70368744177664)%Q in Hy.
  apply Qabs_Qle_condition in Hx, Hy. apply Qabs_Qle_condition.
  subst y. lra.
Qed.

(** *** The pre-counted balance score *)

(** C6: for non-negative counts the pre-counted balance computation
    returns round(employee / (employee + employer) * 100), computed on
    binary64 numbers with Python's round, and exactly 50 when both counts
    sum to 0.  The score differs from the exact percentage
    100 employee / (employee + employer) by at most one half and 2^-45,
    it lies between 0 and 100 and is classified by the thresholds 70, 60,
    40 and 30.  The counts (0, 0) give score 50 and the level balanced,
    (70, 30) give 70 and very unfavourable to the employee, (23, 17) give
    57 and (1, 7) give 12. *)
Theorem power_score_formula (employee employer : Z)
    (He : 0 <= employee) (Hr : 0 <= employer) :
  let r := Index.calculate_power_score employee employer in
  let score := Index.s_balance_score r in
  let level := Index.s_balance_level r in
  (employee + employer = 0 -> score = 50)
  /\ (employee + employer <> 0 ->
      score = F64.round
                (F64.rn (F64.rn (inject_Z employee / inject_Z (employee + employer))
                         * F64.rn (inject_Z 100))))
  /\ 0 <= score <= 100
  /\ (70 <= score -> level = "을에게 매우 불리")
  /\ (60 <= score < 70 -> level = "을에게 불리")
  /\ (40 <= score < 60 -> level = "균형적")
  /\ (30 <= score < 40 -> level = "갑에게 불리")
  /\ (score < 30 -> level = "갑에게 매우 불리")
  /\ Index.s_balance_score (Index.calculate_power_score 0 0) = 50
  /\ Index.s_balance_level (Index.calculate_power_score 0 0) = "균형적"
  /\ (employee + employer <> 0 ->
      (Qabs (inject_Z score
             - 100 * (inject_Z employee / inject_Z (employee + employer)))
       <= (1 # 2) + (1 # 35184372088832))%Q)
  /\ Index.s_balance_score (Index.calculate_power_score 70 30) = 70
  /\ Index.s_balance_level (Index.calculate_power_score 70 30) = "을에게 매우 불리"
  /\ Index.s_balance_score (Index.calculate_power_score 23 17) = 57
  /\ Index.s_balance_level (Index.calculate_power_score 23 17) = "균형적"
  /\ Index.s_balance_score (Index.calculate_power_score 1 7) = 12.
Proof.
  cbv zeta.
  set (c0 := Index.calculate_power_score 0 0).
  set (c1 := Index.calculate_power_score 70 30).
  set (c2 := Index.calculate_power_score 23 17).
  set (c3 := Index.calculate_power_score 1 7).
  unfold Index.calculate_power_score.
  set (score :=
         if employee + employer =? 0 then 50
         else F64.round (F64.mul (F64.truediv employee (employee + employer))
                           (F64.of_int 100))).
  assert (Hscore :
    Index.s_balance_score
      (let '(balance_level, balance_color) :=
         if 70 <=? score then ("을에게 매우 불리", "red")
         else if 60 <=? score then ("을에게 불리", "orange")
         else if 40 <=? score then ("균형적", "green")
         else if 30 <=? score then ("갑에게 불리", "orange")
         else ("갑에게 매우 불리", "red") in
       Index.mkPowerScore score balance_level balance_color employer employee) = score).
  { repeat match goal with
           | |- context [?x <=? ?y] => destruct (x <=? y)
           end; reflexivity. }
  rewrite Hscore.
  split; [| split; [| split]].
  - intros H0. subst score. rewrite (proj2 (Z.eqb_eq _ _) H0). reflexivity.
  - intros Hne. subst score. rewrite (proj2 (Z.eqb_neq _ _) Hne). reflexivity.
  - subst score. destruct (Z.eqb_spec (employee + employer) 0) as [| Hne]; [lia |].
    apply percentage_bounds; [lia | exact Hne].
  - split; [| split; [| split; [| split; [| split]]]];
      try (intros Hs;
           repeat match goal with
                  | |- context [?x <=? ?y] => destruct (Z.leb_spec x y)
                  end; (reflexivity || lia)).
    split; [vm_compute; reflexivity |]. split; [vm_compute; reflexivity |].
    split.
    { intros Hne. subst score. rewrite (proj2 (Z.eqb_neq _ _) Hne).
      apply percentage_accuracy; [lia | exact Hne]. }
    subst c1 c2 c3. repeat split; vm_compute; reflexivity.
Qed.

(** C6 at the counts (70, 30): the score is 70, within the stated
    distance of the exact percentage, and the level is very unfavourable
    to the employee. *)
Lemma power_score_formula_witness :
  0 <= 70 /\ 0 <= 30
  /\ Index.s_balance_score (Index.calculate_power_score 70 30) = 70
  /\ Index.s_balance_level (Index.calculate_power_score 70 30) = "을에게 매우 불리"
  /\ (Qabs (inject_Z 70 - 100 * (inject_Z 70 / inject_Z (70 + 30)))
       <= (1 # 2) + (1 # 35184372088832))%Q.
Proof.
  pose proof (power_score_formula 70 30 ltac:(lia) ltac:(lia)) as H.
  cbv zeta in H.
  destruct H as (_ & Hformula & _ & Hlevel & _ & _ & _ & _ & _ & _ & Hnear & _).
  assert (Hscore : Index.s_balance_score (Index.calculate_power_score 70 30) = 70).
  { rewrite (Hformula ltac:(lia)). vm_compute. reflexivity. }
  split; [lia |]. split; [lia |].
  split; [exact Hscore |].
  split; [apply Hlevel; rewrite Hscore; lia |].
  rewrite <- Hscore at 1. apply Hnear. lia.
Defined.

(** Binary64 arithmetic shows in the score: 23 / 40 * 100 is computed
    just below 57.5 and rounds to 57, where the exact quotient 57.5 rounds
    to 58. *)
Lemma power_score_binary64_effect :
  Index.s_balance_score (Index.calculate_power_score 23 17) = 57
  /\ F64.round_half_even (100 * 23) (23 + 17) = 58.
Proof.
  split; vm_compute; reflexivity.
Qed.

(** *** The severity-weighted ratio *)

Lemma rn_pos_self (k : Z) :
  0 < k -> F64.rn_pos k k = (4503599627370496 # 4503599627370496)%Q.
Proof.
  intros Hk. unfold F64.rn_pos, F64.floor_log2.
  rewrite Z.sub_diag.
  assert (Htest : (k * 2 ^ Z.max 0 0 <=? k * 2 ^ Z.max 0 (- 0)) = true)
    by apply Z.leb_refl.
  rewrite Htest.
  set (e := Z.max (0 - 52) (- 1074)).
  assert (He : e = - 52) by reflexivity.
  rewrite He.
  replace (Z.max 0 (- - 52)) with 52 by reflexivity.
  replace (Z.max 0 (- 52)) with 0 by reflexivity.
  change (2 ^ 0) with 1. rewrite !Z.mul_1_r.
  unfold F64.round_half_even.
  rewrite (Z.mul_comm k (2 ^ 52)).
  rewrite Z.div_mul by lia. rewrite Z.mod_mul by lia.
  assert (Hc : (2 * 0 ?= k) = Lt) by (apply Z.compare_lt_iff; lia).
  rewrite Hc. reflexivity.
Qed.

Lemma div_self (x y : Q) :
  Qeq_bool x y = true -> Qeq_bool x 0 = false ->
  F64.div y x = (4503599627370496 # 4503599627370496)%Q.
Proof.
  intros Hxy Hx0.
  apply Qeq_bool_iff in Hxy.
  assert (Hx : ~ (x == 0)%Q).
  { intros H. apply Qeq_bool_iff in H. congruence. }
  unfold F64.div, F64.rn.
  destruct x as [[| p | p] xd]; destruct y as [[| q | q] yd];
    unfold Qeq in Hxy, Hx; cbn [Qnum Qden] in Hxy, Hx; try lia.
  - cbn [Qdiv Qinv Qmult Qnum Qden Z.mul].
    replace (yd * p)%positive with (q * xd)%positive by lia.
    apply rn_pos_self. lia.
  - cbn [Qdiv Qinv Qmult Qnum Qden Z.mul].
    replace (yd * p)%positive with (q * xd)%positive by lia.
    apply rn_pos_self. lia.
Qed.

Lemma sum_from_float (xs : list num) (a : F64.t) :
  exists x, fold_left num_add xs (Float a) = Float x.
Proof.
  revert a. induction xs as [| w ws IH]; intros a; cbn [fold_left].
  - exists a. reflexivity.
  - destruct w; cbn [num_add to_float]; apply IH.
Qed.

Lemma weighted_sum_shape (items : list PowerItem) :
  (items = [] /\ PowerAnalyzer.weighted_sum items = Int 0)
  \/ (exists x, PowerAnalyzer.weighted_sum items = Float x).
Proof.
  destruct items as [| i items]; [left; split; reflexivity | right].
  unfold PowerAnalyzer.weighted_sum, sum. cbn [map fold_left num_add to_float].
  apply sum_from_float.
Qed.

Lemma weighted_level_of_ratio (employer_items employee_items : list PowerItem) :
  let r := PowerAnalyzer.calculate_power_balance_weighted employer_items employee_items in
  let employer_weighted := PowerAnalyzer.weighted_sum employer_items in
  let employee_weighted := PowerAnalyzer.weighted_sum employee_items in
  let ratio :=
    if eq employer_weighted (Int 0) then employee_weighted
    else num_div employee_weighted employer_weighted in
  PowerAnalyzer.w_balance_ratio r = round_nd ratio 2
  /\ (PowerAnalyzer.w_power_level r, PowerAnalyzer.w_fairness_score r)
     = PowerAnalyzer._determine_power_level ratio.
Proof.
  cbv zeta. unfold PowerAnalyzer.calculate_power_balance_weighted.
  destruct (PowerAnalyzer._determine_power_level _) as [level fairness].
  split; reflexivity.
Qed.

(** C7, as stated, fails: two empty lists have equal weighted sums, yet
    the ratio is 0, the level is not balanced and the fairness score is 95. *)
Lemma equal_zero_sums_not_balanced :
  let r := PowerAnalyzer.calculate_power_balance_weighted [] [] in
  eq (PowerAnalyzer.weighted_sum []) (PowerAnalyzer.weighted_sum []) = true
  /\ PowerAnalyzer.w_balance_ratio r = Int 0
  /\ PowerAnalyzer.w_power_level r = "을 우위 (드문 경우)"
  /\ PowerAnalyzer.w_power_level r <> "균형적"
  /\ PowerAnalyzer.w_fairness_score r = 95
  /\ PowerAnalyzer.w_fairness_score r <> 90.
Proof.
  cbv zeta. repeat split; vm_compute; reflexivity || discriminate.
Qed.

(** C7, amended: for employer and employee item lists whose
    severity-weighted sums are equal and not zero, the severity-weighted
    balance computation yields the ratio 1.0, the level balanced and the
    fairness score 90. *)
Theorem equal_weighted_sums_balanced (employer_items employee_items : list PowerItem)
    (Heq : eq (PowerAnalyzer.weighted_sum employer_items)
              (PowerAnalyzer.weighted_sum employee_items) = true)
    (Hnz : eq (PowerAnalyzer.weighted_sum employer_items) (Int 0) = false) :
  let r := PowerAnalyzer.calculate_power_balance_weighted employer_items employee_items in
  (val (PowerAnalyzer.w_balance_ratio r) == 1)%Q
  /\ (exists x, PowerAnalyzer.w_balance_ratio r = Float x)
  /\ PowerAnalyzer.w_power_level r = "균형적"
  /\ PowerAnalyzer.w_fairness_score r = 90.
Proof.
  cbv zeta.
  destruct (weighted_level_of_ratio employer_items employee_items) as [Hratio Hlevel].
  cbv zeta in Hratio, Hlevel. rewrite Hnz in Hratio, Hlevel.
  assert (Hdiv : num_div (PowerAnalyzer.weighted_sum employee_items)
                   (PowerAnalyzer.weighted_sum employer_items)
                 = Float (4503599627370496 # 4503599627370496)).
  { destruct (weighted_sum_shape employer_items) as [[_ Hr] | [x Hr]];
      rewrite Hr in Heq, Hnz |- *; [discriminate Hnz |].
    destruct (weighted_sum_shape employee_items) as [[_ He] | [y He]];
      rewrite He in Heq |- *.
    - unfold eq, F64.eqb in Heq, Hnz. cbn [val] in Heq, Hnz. congruence.
    - cbn [num_div to_float]. f_equal. apply div_self; assumption. }
  rewrite Hdiv in Hratio, Hlevel.
  assert (Hone : PowerAnalyzer._determine_power_level
                   (Float (4503599627370496 # 4503599627370496)) = ("균형적", 90))
    by (vm_compute; reflexivity).
  rewrite Hone in Hlevel. rewrite Hratio.
  injection Hlevel as -> ->.
  split; [vm_compute; reflexivity |].
  split; [eexists; reflexivity |].
  split; reflexivity.
Qed.

(** The amended C7 on one high employer item against two medium employee
    items, one of them without severity: both sums are 2.0. *)
Lemma equal_weighted_sums_balanced_witness :
  let employer_items := [mkPowerItem (Some "갑은 해지할 수 있다") (Some "high")] in
  let employee_items :=
    [mkPowerItem (Some "을은 배상한다") (Some "medium"); mkPowerItem (Some "을은 준수한다") None] in
  eq (PowerAnalyzer.weighted_sum employer_items)
     (PowerAnalyzer.weighted_sum employee_items) = true
  /\ eq (PowerAnalyzer.weighted_sum employer_items) (Int 0) = false
  /\ PowerAnalyzer.w_fairness_score
       (PowerAnalyzer.calculate_power_balance_weighted employer_items employee_items) = 90.
Proof.
  cbv zeta. split; [reflexivity |]. split; [reflexivity |].
  apply (equal_weighted_sums_balanced
           [mkPowerItem (Some "갑은 해지할 수 있다") (Some "high")]
           [mkPowerItem (Some "을은 배상한다") (Some "medium");
            mkPowerItem (Some "을은 준수한다") None]);
    reflexivity.
Defined.

(** *** Loops over lists that differ in one element *)

Lemma fold_left_ext_at {A S : Type} (body : S -> A -> S) (pre post : list A) (x x' : A) :
  (forall s, body s x = body s x') ->
  forall s, fold_left body (pre ++ x :: post) s = fold_left body (pre ++ x' :: post) s.
Proof.
  intros Hbody s. rewrite !fold_left_app. cbn [fold_left]. rewrite Hbody. reflexivity.
Qed.

Lemma for_each_ext_at {A S : Type} (body : S -> A -> result S) (pre post : list A) (x x' : A) :
  (forall s, body s x = body s x') ->
  forall s, for_each body (pre ++ x :: post) s = for_each body (pre ++ x' :: post) s.
Proof.
  intros Hbody. induction pre as [| a pre IH]; intros s; cbn [app for_each].
  - rewrite Hbody. reflexivity.
  - destruct (body s a) as [s' | e]; cbn [bind]; [apply IH | reflexivity].
Qed.

Lemma map_ext_at {A B : Type} (g : A -> B) (pre post : list A) (x x' : A) :
  g x = g x' -> map g (pre ++ x :: post) = map g (pre ++ x' :: post).
Proof.
  intros Hg. rewrite !map_app. cbn [map]. rewrite Hg. reflexivity.
Qed.

Lemma len_list_at {A : Type} (pre post : list A) (x x' : A) :
  len_list (pre ++ x :: post) = len_list (pre ++ x' :: post).
Proof.
  unfold len_list. rewrite !length_app. reflexivity.
Qed.

(** The aggregator's loop reads a finding only through its category and
    its impact. *)
Lemma risk_loop_ext_at (pre post : list Finding) (x x' : Finding) :
  category x = category x' ->
  RiskCalculator.impact_score x = RiskCalculator.impact_score x' ->
  forall st st' : RiskCalculator.loop_state,
    st.1 = st'.1 -> map snd st.2 = map snd st'.2 ->
    let out := fold_left RiskCalculator.loop_body (pre ++ x :: post) st in
    let out' := fold_left RiskCalculator.loop_body (pre ++ x' :: post) st' in
    out.1 = out'.1 /\ map snd out.2 = map snd out'.2.
Proof.
  intros Hcat Himp.
  assert (Hstep : forall (a a' : Finding) (st st' : RiskCalculator.loop_state),
             category a = category a' ->
             RiskCalculator.impact_score a = RiskCalculator.impact_score a' ->
             st.1 = st'.1 -> map snd st.2 = map snd st'.2 ->
             (RiskCalculator.loop_body st a).1 = (RiskCalculator.loop_body st' a').1
             /\ map snd (RiskCalculator.loop_body st a).2
                = map snd (RiskCalculator.loop_body st' a').2).
  { intros a a' [[t cs] fwi] [[t' cs'] fwi'] Hc Hi H1 H2.
    cbn [fst snd] in H1, H2. injection H1 as -> ->.
    unfold RiskCalculator.loop_body. rewrite Hc, Hi.
    cbn [fst snd]. rewrite !map_app, H2. split; reflexivity. }
  assert (Hsame : forall (fs : list Finding) (st st' : RiskCalculator.loop_state),
             st.1 = st'.1 -> map snd st.2 = map snd st'.2 ->
             (fold_left RiskCalculator.loop_body fs st).1
             = (fold_left RiskCalculator.loop_body fs st').1
             /\ map snd (fold_left RiskCalculator.loop_body fs st).2
                = map snd (fold_left RiskCalculator.loop_body fs st').2).
  { induction fs as [| a fs IH]; intros st st' H1 H2; cbn [fold_left].
    - split; assumption.
    - destruct (Hstep a a st st' eq_refl eq_refl H1 H2) as [H1' H2'].
      apply IH; assumption. }
  intros st st' H1 H2. cbv zeta. rewrite !fold_left_app. cbn [fold_left].
  destruct (Hsame pre st st' H1 H2) as [H1' H2'].
  destruct (Hstep x x' _ _ Hcat Himp H1' H2') as [H1'' H2''].
  apply Hsame; assumption.
Qed.

Lemma risk_score_ext_at (pre post : list Finding) (x x' : Finding) :
  category x = category x' ->
  RiskCalculator.impact_score x = RiskCalculator.impact_score x' ->
  let r := RiskCalculator.calculate_risk_score (pre ++ x :: post) in
  let r' := RiskCalculator.calculate_risk_score (pre ++ x' :: post) in
  RiskCalculator.total_score r = RiskCalculator.total_score r'
  /\ RiskCalculator.grade r = RiskCalculator.grade r'
  /\ RiskCalculator.category_scores r = RiskCalculator.category_scores r'
  /\ map snd (RiskCalculator.findings_with_impact r)
     = map snd (RiskCalculator.findings_with_impact r').
Proof.
  intros Hcat Himp. cbv zeta.
  pose proof (risk_loop_ext_at pre post x x' Hcat Himp (0, ∅, []) (0, ∅, [])
                eq_refl eq_refl) as H.
  cbv zeta in H.
  unfold RiskCalculator.calculate_risk_score.
  destruct (fold_left RiskCalculator.loop_body (pre ++ x :: post) (0, ∅, []))
    as [[t cs] fwi].
  destruct (fold_left RiskCalculator.loop_body (pre ++ x' :: post) (0, ∅, []))
    as [[t' cs'] fwi'].
  cbn [fst snd] in H. destruct H as [H1 H2]. injection H1 as -> ->.
  destruct pre; cbn [app]; repeat split; cbn; assumption || reflexivity.
Qed.

(** *** Defaults for a missing severity *)

Lemma weighted_balance_ext_at (pre post others : list PowerItem) (x x' : PowerItem) :
  default "medium" (item_severity x) = default "medium" (item_severity x') ->
  PowerAnalyzer.calculate_power_balance_weighted (pre ++ x :: post) others
  = PowerAnalyzer.calculate_power_balance_weighted (pre ++ x' :: post) others
  /\ PowerAnalyzer.calculate_power_balance_weighted others (pre ++ x :: post)
     = PowerAnalyzer.calculate_power_balance_weighted others (pre ++ x' :: post).
Proof.
  intros Hsev.
  assert (Hsum : PowerAnalyzer.weighted_sum (pre ++ x :: post)
                 = PowerAnalyzer.weighted_sum (pre ++ x' :: post)).
  { unfold PowerAnalyzer.weighted_sum. f_equal. apply map_ext_at. rewrite Hsev. reflexivity. }
  assert (Hfold : forall s, fold_left PowerAnalyzer.breakdown_body (pre ++ x :: post) s
                            = fold_left PowerAnalyzer.breakdown_body (pre ++ x' :: post) s).
  { apply fold_left_ext_at. intros s. unfold PowerAnalyzer.breakdown_body.
    rewrite Hsev. reflexivity. }
  unfold PowerAnalyzer.calculate_power_balance_weighted,
    PowerAnalyzer._analyze_severity_breakdown.
  rewrite Hsum, !Hfold, (len_list_at pre post x x'). split; reflexivity.
Qed.

Lemma weighted_score_ext_at (pre post others : list PowerItem) (x x' : PowerItem) :
  default "medium" (item_severity x) = default "medium" (item_severity x') ->
  erase_samples (Index.analyze_power_balance_weighted (pre ++ x :: post) others)
  = erase_samples (Index.analyze_power_balance_weighted (pre ++ x' :: post) others)
  /\ erase_samples (Index.analyze_power_balance_weighted others (pre ++ x :: post))
     = erase_samples (Index.analyze_power_balance_weighted others (pre ++ x' :: post)).
Proof.
  intros Hsev.
  assert (Hsum : Index.weighted_score (pre ++ x :: post)
                 = Index.weighted_score (pre ++ x' :: post)).
  { unfold Index.weighted_score. f_equal. apply map_ext_at. rewrite Hsev. reflexivity. }
  assert (Hloop : forall s, for_each Index.count_body (pre ++ x :: post) s
                            = for_each Index.count_body (pre ++ x' :: post) s).
  { apply for_each_ext_at. intros s. unfold Index.count_body.
    rewrite Hsev. reflexivity. }
  unfold Index.analyze_power_balance_weighted.
  rewrite Hsum, !Hloop, (len_list_at pre post x x').
  split.
  - destruct (for_each Index.count_body (pre ++ x' :: post) Index.zero_counts);
      [| reflexivity].
    destruct (for_each Index.count_body others Index.zero_counts); [| reflexivity].
    cbn [bind].
    repeat match goal with
           | |- context [?a <=? ?b] => destruct (a <=? b)
           end; reflexivity.
  - destruct (for_each Index.count_body others Index.zero_counts); [| reflexivity].
    destruct (for_each Index.count_body (pre ++ x' :: post) Index.zero_counts);
      [| reflexivity].
    cbn [bind].
    repeat match goal with
           | |- context [?a <=? ?b] => destruct (a <=? b)
           end; reflexivity.
Qed.

(** C9, as stated, fails: the aggregator of risk_calculator.py scores a
    finding without severity as "medium" (30), not as "low" (21). *)
Lemma risk_calculator_default_is_not_low :
  let missing := mkFinding (Some "unilateral_termination") None None None in
  let total f := RiskCalculator.total_score (RiskCalculator.calculate_risk_score [f]) in
  total missing = 30
  /\ total (set_severity missing (Some "low")) = 21
  /\ total missing <> total (set_severity missing (Some "low")).
Proof.
  cbv zeta. repeat split; vm_compute; discriminate || reflexivity.
Qed.

(** C9, amended: a finding without severity is scored as "low" by
    analyze_contract_risk of index.py and as "medium" by
    calculate_risk_score of risk_calculator.py; a power item without
    severity is scored as "medium" by both severity-weighted balance
    computations.  The defaults belong to the entry point: on the risk
    path of index.py "medium" gives another result than the default. *)
Theorem missing_severity_defaults
    (pre post : list Finding) (c m l : option string)
    (ipre ipost others : list PowerItem) (t : option string) :
  let missing := mkFinding c None m l in
  let imissing := mkPowerItem t None in
  Index.analyze_contract_risk (pre ++ missing :: post)
  = Index.analyze_contract_risk (pre ++ set_severity missing (Some "low") :: post)
  /\ (let r := RiskCalculator.calculate_risk_score (pre ++ missing :: post) in
      let r' := RiskCalculator.calculate_risk_score
                  (pre ++ set_severity missing (Some "medium") :: post) in
      RiskCalculator.total_score r = RiskCalculator.total_score r'
      /\ RiskCalculator.grade r = RiskCalculator.grade r'
      /\ RiskCalculator.category_scores r = RiskCalculator.category_scores r'
      /\ impacts r = impacts r')
  /\ PowerAnalyzer.calculate_power_balance_weighted (ipre ++ imissing :: ipost) others
     = PowerAnalyzer.calculate_power_balance_weighted
         (ipre ++ set_item_severity imissing (Some "medium") :: ipost) others
  /\ PowerAnalyzer.calculate_power_balance_weighted others (ipre ++ imissing :: ipost)
     = PowerAnalyzer.calculate_power_balance_weighted
         others (ipre ++ set_item_severity imissing (Some "medium") :: ipost)
  /\ erase_samples (Index.analyze_power_balance_weighted (ipre ++ imissing :: ipost) others)
     = erase_samples (Index.analyze_power_balance_weighted
                        (ipre ++ set_item_severity imissing (Some "medium") :: ipost) others)
  /\ erase_samples (Index.analyze_power_balance_weighted others (ipre ++ imissing :: ipost))
     = erase_samples (Index.analyze_power_balance_weighted
                        others (ipre ++ set_item_severity imissing (Some "medium") :: ipost))
  /\ Index.analyze_contract_risk [mkFinding c None m l]
     <> Index.analyze_contract_risk [mkFinding c (Some "medium") m l]
  /\ RiskCalculator.total_score
       (RiskCalculator.calculate_risk_score [mkFinding c None m l])
     <> RiskCalculator.total_score
          (RiskCalculator.calculate_risk_score [mkFinding c (Some "low") m l]).
Proof.
  cbv zeta.
  split.
  { unfold Index.analyze_contract_risk.
    rewrite (for_each_ext_at Index.risk_body pre post (mkFinding c None m l)
               (set_severity (mkFinding c None m l) (Some "low")))
      by (intros [[? ?] ?]; reflexivity).
    rewrite (len_list_at pre post (mkFinding c None m l)
               (set_severity (mkFinding c None m l) (Some "low"))).
    reflexivity. }
  split.
  { apply (risk_score_ext_at pre post (mkFinding c None m l)
             (set_severity (mkFinding c None m l) (Some "medium")));
      reflexivity. }
  split; [apply weighted_balance_ext_at; reflexivity |].
  split; [apply weighted_balance_ext_at; reflexivity |].
  split; [apply weighted_score_ext_at; reflexivity |].
  split; [apply weighted_score_ext_at; reflexivity |].
  split.
  - unfold Index.analyze_contract_risk. cbn [for_each].
    unfold Index.risk_body. cbn [severity category default from_option id].
    set (cc := <[ default "" c := _ ]> ∅).
    vm_compute. discriminate.
  - rewrite !total_score_min. cbn [total_impact foldr].
    unfold RiskCalculator.impact_score. cbn [severity category].
    destruct (risk_weight_cases (default "" c)) as [-> | [-> | [-> | [-> | ->]]]];
      vm_compute; discriminate.
Qed.
